(** * Library Book Tracker API: the Book model and its route handlers

    A shallow embedding of [models/Book.js] (the Mongoose schema) and of the
    Express route handlers of the server file, over an in-memory collection of
    documents, followed by the properties of the handlers.

    The handlers are translated from the JavaScript source.  The datastore
    calls they make ([Book.create], [Book.find], [Book.findOne],
    [Book.updateOne], [Book.updateMany], [Book.deleteOne]) are given the
    behaviour Mongoose documents for the options the schema switches on:
    type casting, [required], [trim], [default] and [timestamps].

    The JavaScript primitives the handlers and the casts rest on are modelled
    as the language defines them: a Number is a double, [parseInt] and
    [Number] round to the nearest one, a Number prints as its shortest
    decimal, and white space is the Unicode white space of the language, on
    strings held as UTF-8. *)

From stdpp Require Import base option list strings gmap fin_maps pretty.
From Stdlib Require Import ZArith NArith Ascii String Lia.

Local Open Scope string_scope.
Local Open Scope Z_scope.

(** ** Numbers *)

(** A JavaScript Number: [NaN], an infinity, or a finite double.  Every
    finite double is a whole multiple of [2 ^ -1074], the smallest positive
    one; [Fin k] is the number [k * 2 ^ -1074].  The two zeros are not
    told apart: no handler divides, and the datastore compares them equal. *)
Inductive number : Type :=
  | NaN
  | Infinity (negative : bool)
  | Fin (k : Z).

Global Instance number_eq_dec : EqDecision number.
Proof. solve_decision. Defined.

Definition ulps : Z := 2 ^ 1074.

(** The Number whose value is the integer [n]; a double holds it exactly
    when [n] has at most 53 significant bits, every publication year among
    them. *)
Definition Int (n : Z) : number := Fin (n * ulps).
Coercion Int : Z >-> number.

Definition is_NaN (x : number) : bool :=
  match x with
  | NaN => true
  | _ => false
  end.

Definition negate (x : number) : number :=
  match x with
  | NaN => NaN
  | Infinity s => Infinity (negb s)
  | Fin k => Fin (- k)
  end.

(** [x < y] on Numbers, as JavaScript and the datastore compare them: false
    as soon as one side is [NaN]. *)
Definition num_ltb (x y : number) : bool :=
  match x, y with
  | NaN, _ | _, NaN => false
  | Infinity a, Infinity b => a && negb b
  | Infinity a, Fin _ => a
  | Fin _, Infinity b => negb b
  | Fin a, Fin b => a <? b
  end.

(** The pair [(n, d)] with [n / d = p / (q * 2 ^ e)]. *)
Definition scaled (p q e : Z) : Z * Z :=
  if 0 <=? e then (p, q * 2 ^ e) else (p * 2 ^ (- e), q).

(** The Number value of the rational [p / q], for [0 <= p] and [0 < q]: the
    nearest double, ties going to the even significand, and [Infinity] from
    [2 ^ 1024 - 2 ^ 970] on.  The exponent [e] is chosen so that the
    significand [p / (q * 2 ^ e)] has 53 bits, or is [-1074] for the
    subnormals. *)
Definition round_ratio (p q : Z) : number :=
  if p <=? 0 then Fin 0
  else
    let e1 := Z.log2 p - Z.log2 q - 53 in
    let '(n0, d0) := scaled p q e1 in
    let e := Z.max (e1 + (Z.log2 (n0 / d0) - 52)) (-1074) in
    let '(num, den) := scaled p q e in
    let m := num / den in
    let r := num mod den in
    let m' := if (den <? 2 * r) || ((den =? 2 * r) && Z.odd m) then m + 1 else m in
    if (971 <=? e) && (2 ^ 1024 <=? m' * 2 ^ e) then Infinity false
    else Fin (m' * 2 ^ (e + 1074)).

(** The Number value of a mathematical integer. *)
Definition round_integer (v : Z) : number :=
  if v <? 0 then negate (round_ratio (- v) 1) else round_ratio v 1.

(** The Number value of [d * 10 ^ x], for [0 <= d]. *)
Definition of_decimal (d x : Z) : number :=
  if 0 <=? x then round_ratio (d * 10 ^ x) 1 else round_ratio d (10 ^ (- x)).

(** ** JavaScript values *)

(** A parsed JSON request body value.  [undefined] is the absence of a
    value, [None] in an [option json]. *)
#[warnings="-register-all"]
Inductive json : Type :=
  | JNull
  | JBool (b : bool)
  | JNum (x : number)
  | JStr (s : string)
  | JArr (items : list json)
  | JObj (props : list (string * json)).

(** JavaScript truthiness of a possibly undefined value: [undefined], [null],
    [false], [0], [NaN] and the empty string are falsy, everything else
    (arrays and objects included) is truthy. *)
Definition truthy (v : option json) : bool :=
  match v with
  | None => false
  | Some JNull => false
  | Some (JBool b) => b
  | Some (JNum NaN) => false
  | Some (JNum (Infinity _)) => true
  | Some (JNum (Fin k)) => negb (k =? 0)%Z
  | Some (JStr s) => negb (String.eqb s "")
  | Some (JArr _) => true
  | Some (JObj _) => true
  end.

(** [typeof v === "boolean"]. *)
Definition is_boolean (v : option json) : bool :=
  match v with
  | Some (JBool _) => true
  | _ => false
  end.

(** ** Strings *)

(** A string is the sequence of the bytes of its UTF-8 encoding.  The white
    space of the language ([WhiteSpace] and [LineTerminator]), which
    [String.prototype.trim] strips and [parseInt] and [Number] skip, is then
    one, two or three bytes long. *)

(** TAB, LF, VT, FF, CR and SPACE. *)
Definition is_space1 (a : ascii) : bool :=
  let n := N_of_ascii a in
  (((9 <=? n) && (n <=? 13)) || (n =? 32))%N.

(** U+00A0, the bytes [C2 A0]. *)
Definition is_space2 (a b : ascii) : bool :=
  ((N_of_ascii a =? 194) && (N_of_ascii b =? 160))%N.

(** U+1680 ([E1 9A 80]), U+2000 to U+200A ([E2 80 80] to [E2 80 8A]), U+2028,
    U+2029 and U+202F ([E2 80 A8], [E2 80 A9], [E2 80 AF]), U+205F
    ([E2 81 9F]), U+3000 ([E3 80 80]) and U+FEFF ([EF BB BF]). *)
Definition is_space3 (a b c : ascii) : bool :=
  let x := N_of_ascii a in
  let y := N_of_ascii b in
  let z := N_of_ascii c in
  (((x =? 225) && (y =? 154) && (z =? 128))
   || ((x =? 226) && (y =? 128)
       && (((128 <=? z) && (z <=? 138)) || (z =? 168) || (z =? 169) || (z =? 175)))
   || ((x =? 226) && (y =? 129) && (z =? 159))
   || ((x =? 227) && (y =? 128) && (z =? 128))
   || ((x =? 239) && (y =? 187) && (z =? 191)))%N.

(** [s] without its leading white space. *)
Fixpoint ltrim (s : string) : string :=
  match s with
  | EmptyString => EmptyString
  | String a s1 =>
      if is_space1 a then ltrim s1
      else
        match s1 with
        | EmptyString => s
        | String b s2 =>
            if is_space2 a b then ltrim s2
            else
              match s2 with
              | EmptyString => s
              | String c s3 => if is_space3 a b c then ltrim s3 else s
              end
        end
  end.

(** [s] without its trailing white space: the text is cut where only white
    space follows. *)
Fixpoint rtrim (s : string) : string :=
  match s with
  | EmptyString => EmptyString
  | String a s' =>
      match ltrim s with
      | EmptyString => EmptyString
      | _ => String a (rtrim s')
      end
  end.

(** [s.trim()]. *)
Definition trim (s : string) : string := rtrim (ltrim s).

(** The value of a digit character in the given radix. *)
Definition digit_value (radix : Z) (a : ascii) : option Z :=
  let n := Z.of_N (N_of_ascii a) in
  let d :=
    if (48 <=? n) && (n <=? 57) then Some (n - 48)
    else if (97 <=? n) && (n <=? 122) then Some (n - 87)
    else if (65 <=? n) && (n <=? 90) then Some (n - 55)
    else None in
  match d with
  | Some v => if v <? radix then Some v else None
  | None => None
  end.

(** The longest prefix of digits of [s], read in [radix] after the digits
    already accumulated in [acc]; the flag tells whether a digit was seen. *)
Fixpoint read_digits (radix : Z) (s : string) (seen : bool) (acc : Z) : option Z :=
  match s with
  | EmptyString => if seen then Some acc else None
  | String a s' =>
      match digit_value radix a with
      | Some d => read_digits radix s' true (acc * radix + d)
      | None => if seen then Some acc else None
      end
  end.

(** The digits of [parseInt] after the sign: an [0x] or [0X] prefix selects
    radix 16, otherwise radix 10. *)
Definition read_unsigned (s : string) : option Z :=
  match s with
  | String "0" (String "x" s') => read_digits 16 s' false 0
  | String "0" (String "X" s') => read_digits 16 s' false 0
  | _ => read_digits 10 s false 0
  end.

(** The Number of the integer some digits spell; [NaN] without digits. *)
Definition of_digits (o : option Z) : number :=
  match o with
  | Some v => round_integer v
  | None => NaN
  end.

(** [parseInt(s)] with no radix argument: leading white space is skipped, a
    sign and the longest run of digits are read, and the integer they spell
    is rounded to a Number. *)
Definition parseInt (s : string) : number :=
  match ltrim s with
  | String "-" s' => negate (of_digits (read_unsigned s'))
  | String "+" s' => of_digits (read_unsigned s')
  | s' => of_digits (read_unsigned s')
  end.

(** Whether every character of [s] is a digit of [radix]. *)
Fixpoint all_digits (radix : Z) (s : string) : bool :=
  match s with
  | EmptyString => true
  | String a s' =>
      match digit_value radix a with
      | Some _ => all_digits radix s'
      | None => false
      end
  end.

(** The digits of a whole string in [radix]; [None] when the string is empty
    or holds another character. *)
Definition read_all (radix : Z) (s : string) : option Z :=
  if all_digits radix s then read_digits radix s false 0 else None.

(** The decimal digits at the head of [s], read after [acc]: the integer
    read, how many digits were added to [count], and the rest of [s]. *)
Fixpoint span_digits (s : string) (acc : Z) (count : Z) : Z * Z * string :=
  match s with
  | EmptyString => (acc, count, s)
  | String a s' =>
      match digit_value 10 a with
      | Some d => span_digits s' (acc * 10 + d) (count + 1)
      | None => (acc, count, s)
      end
  end.

(** The exponent after [e] or [E]: an optional sign and at least one digit,
    up to the end of the literal. *)
Definition exponent_part (s : string) : option Z :=
  match s with
  | String "-" s' => Z.opp <$> read_all 10 s'
  | String "+" s' => read_all 10 s'
  | _ => read_all 10 s
  end.

(** The unsigned decimal literals of [Number(s)]: [Infinity], or digits with
    an optional fraction and an optional exponent, at least one digit
    standing before or after the point. *)
Definition unsigned_decimal (s : string) : number :=
  if String.eqb s "Infinity" then Infinity false
  else
    let '(i, ni, r1) := span_digits s 0 0 in
    let '(f, nf, r2) :=
      match r1 with
      | String "." r => span_digits r i 0
      | _ => (i, 0, r1)
      end in
    if ni + nf =? 0 then NaN
    else
      match r2 with
      | EmptyString => of_decimal f (- nf)
      | String "e" r3 | String "E" r3 =>
          match exponent_part r3 with
          | Some x => of_decimal f (x - nf)
          | None => NaN
          end
      | _ => NaN
      end.

(** [Number(s)]: surrounding white space is ignored, the blank string is
    [0], a decimal literal may carry a sign, [0x], [0o] and [0b] literals may
    not, and any other text is [NaN]. *)
Definition StringToNumber (s : string) : number :=
  match trim s with
  | EmptyString => Fin 0
  | String "0" (String "x" s') | String "0" (String "X" s') => of_digits (read_all 16 s')
  | String "0" (String "o" s') | String "0" (String "O" s') => of_digits (read_all 8 s')
  | String "0" (String "b" s') | String "0" (String "B" s') => of_digits (read_all 2 s')
  | String "-" s' => negate (unsigned_decimal s')
  | String "+" s' => unsigned_decimal s'
  | s' => unsigned_decimal s'
  end.

(** Whether [10 ^ x <= k * 2 ^ -1074]. *)
Definition pow10_le (x k : Z) : bool :=
  if 0 <=? x then 10 ^ x * ulps <=? k else ulps <=? k * 10 ^ (- x).

(** The [n] with [10 ^ (n - 1) <= k * 2 ^ -1074 < 10 ^ n], for [0 < k]: it
    is searched around the estimate the binary logarithm gives. *)
Definition magnitude (k : Z) : Z :=
  let est := (Z.log2 k - 1074) * 30103 / 100000 in
  default est (List.find (λ x, negb (pow10_le x k)) (seqZ (est - 2) 8)).

(** Among the decimals [s * 10 ^ (n - kd)] whose Number value is
    [Fin k], the one nearest to [k * 2 ^ -1074], the even [s] on a tie;
    [None] when neither neighbour of [k * 2 ^ -1074] has that value. *)
Definition nearest_decimal (k n kd : Z) : option Z :=
  let t := n - kd in
  let '(v, unit) := if 0 <=? t then (k, 10 ^ t * ulps) else (k * 10 ^ (- t), ulps) in
  let lo := v / unit in
  let hi := lo + 1 in
  let ok_lo := bool_decide (of_decimal lo t = Fin k) in
  let ok_hi := bool_decide (of_decimal hi t = Fin k) in
  let dl := v - lo * unit in
  let dh := hi * unit - v in
  if ok_lo && ok_hi then
    Some (if dl <? dh then lo else if dh <? dl then hi else if Z.even lo then lo else hi)
  else if ok_lo then Some lo
  else if ok_hi then Some hi
  else None.

(** The digits [s], the exponent [n] and the digit count [kd] of
    [Number::toString]: [kd] is the least count, from [kd] up, for which a
    decimal [s * 10 ^ (n - kd)] has the Number value [Fin k]. *)
Fixpoint shortest_decimal (k n : Z) (fuel : nat) (kd : Z) : Z * Z * Z :=
  match fuel with
  | O => (k, n, kd)
  | S fuel' =>
      match nearest_decimal k n kd with
      | Some s => if s =? 10 ^ kd then (10 ^ (kd - 1), n + 1, kd) else (s, n, kd)
      | None => shortest_decimal k n fuel' (kd + 1)
      end
  end.

Fixpoint zeros (n : nat) : string :=
  match n with
  | O => ""
  | S n' => String "0" (zeros n')
  end.

(** The text of a positive finite Number: plain digits up to [10 ^ 21], a
    leading [0.] down to [10 ^ -6], the exponent form beyond. *)
Definition positive_to_string (k : Z) : string :=
  let '(s, n, kd) := shortest_decimal k (magnitude k) 17 1 in
  let ds := pretty s in
  if (kd <=? n) && (n <=? 21) then ds ++ zeros (Z.to_nat (n - kd))
  else if (0 <? n) && (n <=? 21) then
    substring 0 (Z.to_nat n) ds ++ "." ++ substring (Z.to_nat n) (Z.to_nat (kd - n)) ds
  else if (-6 <? n) && (n <=? 0) then "0." ++ zeros (Z.to_nat (- n)) ++ ds
  else
    let e := n - 1 in
    let es := (if 0 <=? e then "+" else "-") ++ pretty (Z.abs e) in
    if kd =? 1 then ds ++ "e" ++ es
    else substring 0 1 ds ++ "." ++ substring 1 (Z.to_nat (kd - 1)) ds ++ "e" ++ es.

(** [x.toString()] of a Number. *)
Definition NumberToString (x : number) : string :=
  match x with
  | NaN => "NaN"
  | Infinity s => if s then "-Infinity" else "Infinity"
  | Fin k =>
      if k =? 0 then "0"
      else if k <? 0 then "-" ++ positive_to_string (- k)
      else positive_to_string k
  end.

(** ** Stored values and documents *)

(** The scalar values a stored document holds under the Book schema. *)
Inductive bson : Type :=
  | BNull
  | BBool (b : bool)
  | BNum (x : number)
  | BStr (s : string)
  | BDate (t : Z).

Global Instance bson_eq_dec : EqDecision bson.
Proof. solve_decision. Defined.

(** An ObjectId: the 96-bit number its 24 hexadecimal characters spell. *)
Definition ObjectId : Type := N.

(** A stored document: its [_id] and its other fields by name. *)
Record document : Type := mkDocument {
  _id : ObjectId;
  fields : gmap string bson
}.

Global Instance document_eq_dec : EqDecision document.
Proof. solve_decision. Defined.

(** A collection is a [list document] in natural order: an insert appends,
    and a search goes from the oldest document to the newest. *)

(** What the clock and the driver supply to a request: the current time, and
    the identifier the driver generates for an inserted document. *)
Record env : Type := mkEnv {
  now : Z;
  fresh_id : ObjectId
}.

(** ** Errors of the datastore layer *)

Inductive exn : Type :=
  | CastError (path : string)
  | ValidationError
  | DuplicateKeyError.

(** The result of an awaited datastore call: a value, or a thrown error. *)
Inductive outcome (A : Type) : Type :=
  | Ok (a : A)
  | Throw (e : exn).
Arguments Ok {A} a.
Arguments Throw {A} e.

Global Instance outcome_ret : MRet outcome := λ A a, Ok a.
Global Instance outcome_bind : MBind outcome := λ A B f m,
  match m with
  | Ok a => f a
  | Throw e => Throw e
  end.

(** A cast that fails throws a [CastError] naming the path. *)
Definition or_cast_error {A} (path : string) (o : option A) : outcome A :=
  match o with
  | Some a => Ok a
  | None => Throw (CastError path)
  end.

(** ** The schema of [models/Book.js] *)

Inductive schema_type : Type := SString | SNumber | SBoolean.

Record schema_path : Type := mkPath {
  path_name : string;
  path_type : schema_type;
  path_required : bool;
  path_trim : bool;
  path_default : option bson
}.

Definition title_path : schema_path := mkPath "title" SString true true None.
Definition author_path : schema_path := mkPath "author" SString true true None.
Definition genre_path : schema_path := mkPath "genre" SString true true None.
Definition publicationYear_path : schema_path :=
  mkPath "publicationYear" SNumber true false None.
Definition available_path : schema_path :=
  mkPath "available" SBoolean false false (Some (BBool true)).

Definition bookSchema : list schema_path :=
  [title_path; author_path; genre_path; publicationYear_path; available_path].

(** The schema option [{ timestamps: true }]. *)
Definition timestamps : bool := true.

Definition schema_lookup (name : string) : option schema_path :=
  List.find (λ p, String.eqb (path_name p) name) bookSchema.

(** ** Casting to the schema types *)

(** The property [name] of an object literal, in source order of the list
    (the last write of a key wins). *)
Fixpoint prop_lookup (name : string) (props : list (string * json)) : option json :=
  match props with
  | [] => None
  | (k, v) :: rest =>
      match prop_lookup name rest with
      | Some w => Some w
      | None => if String.eqb k name then Some v else None
      end
  end.

(** The cast of a value to String: [null] stays [null], an object with a
    non-empty string [_id] casts to that string, a string, number or boolean
    casts to its [toString()], and an array or any other object fails. *)
Definition castString (v : json) : option bson :=
  match v with
  | JNull => Some BNull
  | JStr s => Some (BStr s)
  | JNum x => Some (BStr (NumberToString x))
  | JBool b => Some (BStr (if b then "true" else "false"))
  | JArr _ => None
  | JObj props =>
      match prop_lookup "_id" props with
      | Some (JStr s) => if String.eqb s "" then None else Some (BStr s)
      | _ => None
      end
  end.

(** The cast function of the Number type refuses [NaN]. *)
Definition not_NaN (x : number) : option number :=
  if is_NaN x then None else Some x.

(** The cast function of the Number type: [null] stays [null], the empty
    string becomes [null], a string or boolean goes through [Number(v)], the
    number must not be [NaN], and an array or object fails. *)
Definition castNumber (v : json) : option bson :=
  match v with
  | JNull => Some BNull
  | JNum x => BNum <$> not_NaN x
  | JStr s => if String.eqb s "" then Some BNull else BNum <$> not_NaN (StringToNumber s)
  | JBool b => Some (BNum (if b then 1 else 0))
  | JArr _ => None
  | JObj _ => None
  end.

(** The cast of a value to Number: an object that has an [_id] stands for
    that [_id]; the value then goes through the cast function. *)
Definition SchemaNumber_cast (v : json) : option bson :=
  match v with
  | JObj props =>
      match prop_lookup "_id" props with
      | Some w => castNumber w
      | None => None
      end
  | _ => castNumber v
  end.

(** The cast of a value to Boolean: [true], ["true"], [1], ["1"], ["yes"]
    are true, [false], ["false"], [0], ["0"], ["no"] are false, [null] stays
    [null], anything else fails. *)
Definition castBoolean (v : json) : option bson :=
  match v with
  | JNull => Some BNull
  | JBool b => Some (BBool b)
  | JNum x => if bool_decide (x = Int 1) then Some (BBool true)
              else if bool_decide (x = Int 0) then Some (BBool false) else None
  | JStr s =>
      if String.eqb s "true" || String.eqb s "1" || String.eqb s "yes"
      then Some (BBool true)
      else if String.eqb s "false" || String.eqb s "0" || String.eqb s "no"
      then Some (BBool false)
      else None
  | JArr _ => None
  | JObj _ => None
  end.

(** The [trim] setter of a String path. *)
Definition apply_trim (p : schema_path) (b : bson) : bson :=
  match b with
  | BStr s => if path_trim p then BStr (trim s) else b
  | _ => b
  end.

(** A value as the schema path stores it: cast to the path's type, with the
    path's setter applied; [None] is a cast failure. *)
Definition cast_path (p : schema_path) (v : json) : option bson :=
  match path_type p with
  | SString => apply_trim p <$> castString v
  | SNumber => SchemaNumber_cast v
  | SBoolean => castBoolean v
  end.

(** The characters of an ObjectId string read as one hexadecimal number. *)
Fixpoint read_hex (s : string) (acc : N) : option N :=
  match s with
  | EmptyString => Some acc
  | String a s' =>
      match digit_value 16 a with
      | Some d => read_hex s' (acc * 16 + Z.to_N d)%N
      | None => None
      end
  end.

(** The cast of a path parameter to ObjectId: a string of exactly 24
    hexadecimal characters. *)
Definition castObjectId (s : string) : option ObjectId :=
  if (String.length s =? 24)%nat then read_hex s 0%N else None.

(** ** Queries *)

(** The filters the handlers pass to the model.  The operand of [$lt] is the
    Number computed by [parseInt]. *)
Inductive query : Type :=
  | QAll
  | QId (id : string)
  | QEq (path : string) (value : string)
  | QExists (path : string) (present : bool)
  | QLt (path : string) (bound : number).

(** The selection of a document by its identifier. *)
Definition has_id (oid : ObjectId) (d : document) : bool := N.eqb (_id d) oid.

(** Casting a filter against the schema gives the predicate the collection
    is searched with.  An [_id] is cast to ObjectId; an equality on a schema
    path is cast like a value of that path, setters included; the operand of
    [$lt] is cast to Number, which [NaN] fails.  [$lt] selects only documents
    whose field holds a number below the operand. *)
Definition cast_query (q : query) : outcome (document → bool) :=
  match q with
  | QAll => Ok (λ _, true)
  | QId id =>
      oid ← or_cast_error "_id" (castObjectId id);
      Ok (has_id oid)
  | QEq path value =>
      b ← match schema_lookup path with
          | Some p => or_cast_error path (cast_path p (JStr value))
          | None => Ok (BStr value)
          end;
      Ok (λ d, bool_decide (fields d !! path = Some b))
  | QExists path present =>
      Ok (λ d, Bool.eqb (bool_decide (is_Some (fields d !! path))) present)
  | QLt path bound =>
      y ← or_cast_error path (not_NaN bound);
      Ok (λ d, match fields d !! path with
               | Some (BNum n) => num_ltb n y
               | _ => false
               end)
  end.

(** [Book.find(q)]: the matching documents, in collection order. *)
Definition Book_find (q : query) (db : list document) : outcome (list document) :=
  m ← cast_query q;
  Ok (List.filter m db).

(** [Book.findOne(q)]: the first matching document, or [null]. *)
Definition Book_findOne (q : query) (db : list document) : outcome (option document) :=
  m ← cast_query q;
  Ok (List.find m db).

(** ** Writes *)

Record update_result : Type := mkUpdateResult {
  acknowledged : bool;
  matchedCount : nat;
  modifiedCount : nat
}.

Record delete_result : Type := mkDeleteResult {
  delete_acknowledged : bool;
  deletedCount : nat
}.

(** The [$set] of an update cast against the schema: each schema path the
    update names is cast like a value of that path; names outside the schema
    are dropped (strict mode). *)
Fixpoint cast_set (paths : list schema_path) (upd : gmap string json)
  : outcome (gmap string bson) :=
  match paths with
  | [] => Ok ∅
  | p :: rest =>
      changes ← cast_set rest upd;
      match upd !! path_name p with
      | None => Ok changes
      | Some v =>
          b ← or_cast_error (path_name p) (cast_path p v);
          Ok (<[path_name p := b]> changes)
      end
  end.

(** With [timestamps] on, every update also sets [updatedAt]. *)
Definition stamp_update (t : Z) (changes : gmap string bson) : gmap string bson :=
  if timestamps then <["updatedAt" := BDate t]> changes else changes.

(** A document after [$set]: the changed fields over the old ones. *)
Definition apply_set (changes : gmap string bson) (d : document) : document :=
  mkDocument (_id d) (changes ∪ fields d).

(** Rewrite the first document that matches. *)
Fixpoint update_first (m : document → bool) (f : document → document)
  (db : list document) : list document :=
  match db with
  | [] => []
  | d :: rest => if m d then f d :: rest else d :: update_first m f rest
  end.

(** Remove the first document that matches. *)
Fixpoint delete_first (m : document → bool) (db : list document) : list document :=
  match db with
  | [] => []
  | d :: rest => if m d then rest else d :: delete_first m rest
  end.

(** How many of the selected documents a rewrite really changes. *)
Definition count_modified (m : document → bool) (f : document → document)
  (db : list document) : nat :=
  List.length (List.filter (λ d, m d && negb (bool_decide (f d = d))) db).

(** [Book.updateOne(q, { $set: upd })]. *)
Definition Book_updateOne (e : env) (q : query) (upd : gmap string json)
  (db : list document) : outcome (update_result * list document) :=
  m ← cast_query q;
  changes ← cast_set bookSchema upd;
  let f := apply_set (stamp_update (now e) changes) in
  match List.find m db with
  | None => Ok (mkUpdateResult true 0 0, db)
  | Some d =>
      Ok (mkUpdateResult true 1 (if bool_decide (f d = d) then 0 else 1)%nat,
          update_first m f db)
  end.

(** [Book.updateMany(q, { $set: upd })]. *)
Definition Book_updateMany (e : env) (q : query) (upd : gmap string json)
  (db : list document) : outcome (update_result * list document) :=
  m ← cast_query q;
  changes ← cast_set bookSchema upd;
  let f := apply_set (stamp_update (now e) changes) in
  Ok (mkUpdateResult true (List.length (List.filter m db)) (count_modified m f db),
      (λ d, if m d then f d else d) <$> db).

(** [Book.deleteOne(q)]. *)
Definition Book_deleteOne (q : query) (db : list document)
  : outcome (delete_result * list document) :=
  m ← cast_query q;
  match List.find m db with
  | None => Ok (mkDeleteResult true 0, db)
  | Some _ => Ok (mkDeleteResult true 1, delete_first m db)
  end.

(** The value of a property of the object literal given to [Book.create];
    a property holding [undefined] reads like an absent one. *)
Definition obj_get (name : string) (obj : list (string * option json)) : option json :=
  match List.find (λ kv, String.eqb kv.1 name) obj with
  | Some (_, v) => v
  | None => None
  end.

(** The [required] validator: a non-empty string on a String path, a number
    on a Number path, a boolean on a Boolean path. *)
Definition check_required (p : schema_path) (v : option bson) : bool :=
  match path_type p, v with
  | SString, Some (BStr s) => negb (String.eqb s "")
  | SNumber, Some (BNum _) => true
  | SBoolean, Some (BBool _) => true
  | _, _ => false
  end.

(** The value a schema path takes in a new document: the cast of the given
    value, or the path's default when the value is [undefined]; a value that
    does not cast fails validation. *)
Definition path_value (p : schema_path) (obj : list (string * option json))
  : outcome (option bson) :=
  match obj_get (path_name p) obj with
  | None => Ok (path_default p)
  | Some j =>
      match cast_path p j with
      | Some b => Ok (Some b)
      | None => Throw ValidationError
      end
  end.

(** The fields of a new document, path by path; a required path left without
    a valid value fails validation. *)
Fixpoint construct (paths : list schema_path) (obj : list (string * option json))
  : outcome (gmap string bson) :=
  match paths with
  | [] => Ok ∅
  | p :: rest =>
      v ← path_value p obj;
      if path_required p && negb (check_required p v) then Throw ValidationError
      else
        others ← construct rest obj;
        Ok (match v with
            | Some b => <[path_name p := b]> others
            | None => others
            end)
  end.

(** With [timestamps] on, an insert sets [createdAt] and [updatedAt]. *)
Definition stamp_insert (t : Z) (fs : gmap string bson) : gmap string bson :=
  if timestamps then <["createdAt" := BDate t]> (<["updatedAt" := BDate t]> fs) else fs.

(** [Book.create(obj)]: build and validate the document, give it the
    generated [_id] and the version key, and append it to the collection.
    The [_id] index rejects an identifier already in use. *)
Definition Book_create (e : env) (obj : list (string * option json))
  (db : list document) : outcome (document * list document) :=
  fs ← construct bookSchema obj;
  if bool_decide (fresh_id e ∈ _id <$> db) then Throw DuplicateKeyError
  else
    let d := mkDocument (fresh_id e) (<["__v" := BNum 0]> (stamp_insert (now e) fs)) in
    Ok (d, (db ++ [d])%list).

(** ** Responses *)

(** What a response carries.  A document in a payload is the stored document
    the response is built from; the JSON text it is serialised to is not
    modelled. *)
Inductive payload : Type :=
  | PText (text : string)
  | PCreated (message : string) (book : document)
  | PBooks (books : list document)
  | PBook (book : document)
  | PMessage (message : string)
  | PError (error : string)
  | PUpdateResult (result : update_result)
  | PDeleteResult (result : delete_result).

Record response : Type := mkResponse {
  status : nat;
  payload_of : payload
}.

(** [res.json(p)], with the default status. *)
Definition res_json (p : payload) : response := mkResponse 200 p.

(** ** The route handlers *)

(** [GET /] *)
Definition get_home : response :=
  mkResponse 200 (PText "📚 Library Book Tracker API is running").

(** [POST /books] *)
Definition post_books (e : env) (req_body : gmap string json) (db : list document)
  : response * list document :=
  let title := req_body !! "title" in
  let author := req_body !! "author" in
  let genre := req_body !! "genre" in
  let publicationYear := req_body !! "publicationYear" in
  let available := req_body !! "available" in
  match Book_create e
          [ ("title", title); ("author", author); ("genre", genre);
            ("publicationYear", publicationYear); ("available", available) ] db with
  | Ok (newBook, db') => (mkResponse 201 (PCreated "✅ New book added" newBook), db')
  | Throw _ => (mkResponse 500 (PError "Error adding book"), db)
  end.

(** [GET /books] *)
Definition get_books (db : list document) : response :=
  match Book_find QAll db with
  | Ok books => res_json (PBooks books)
  | Throw _ => mkResponse 500 (PError "Error fetching books")
  end.

(** [GET /books/genre/:genre] *)
Definition get_books_genre (genre : string) (db : list document) : response :=
  match Book_find (QEq "genre" genre) db with
  | Ok books => res_json (PBooks books)
  | Throw _ => mkResponse 500 (PError "Error fetching by genre")
  end.

(** [GET /books/title/:title] *)
Definition get_books_title (title : string) (db : list document) : response :=
  match Book_findOne (QEq "title" title) db with
  | Ok None => mkResponse 404 (PMessage "Book not found")
  | Ok (Some book) => res_json (PBook book)
  | Throw _ => mkResponse 500 (PError "Error searching by title")
  end.

(** [cond && { key }]: the one-property object when [cond] is truthy, the
    falsy [cond] itself ([None]) otherwise. *)
Definition and_prop (cond : bool) (key : string) (v : option json)
  : option (gmap string json) :=
  if cond then Some (from_option (λ x, {[ key := x ]}) ∅ v) else None.

(** [{ ...target, ...src }]: the properties of [src] written over [target];
    spreading a falsy value adds nothing. *)
Definition spread (target : gmap string json) (src : option (gmap string json))
  : gmap string json :=
  match src with
  | Some o => o ∪ target
  | None => target
  end.

(** The [$set] object the update handler builds from the request body. *)
Definition update_set (req_body : gmap string json) : gmap string json :=
  let genre := req_body !! "genre" in
  let available := req_body !! "available" in
  let publicationYear := req_body !! "publicationYear" in
  let title := req_body !! "title" in
  let author := req_body !! "author" in
  let s := spread ∅ (and_prop (truthy genre) "genre" genre) in
  let s := spread s (and_prop (is_boolean available) "available" available) in
  let s := spread s (and_prop (truthy publicationYear) "publicationYear" publicationYear) in
  let s := spread s (and_prop (truthy title) "title" title) in
  spread s (and_prop (truthy author) "author" author).

(** The four paths the update handler guards by truthiness. *)
Definition truthy_guarded : list string :=
  ["genre"; "publicationYear"; "title"; "author"].

(** The five paths the update handler can send. *)
Definition updatable : list string := "available" :: truthy_guarded.

(** [PUT /books/:id] *)
Definition put_books_id (e : env) (id : string) (req_body : gmap string json)
  (db : list document) : response * list document :=
  match Book_updateOne e (QId id) (update_set req_body) db with
  | Ok (result, db') => (res_json (PUpdateResult result), db')
  | Throw _ => (mkResponse 500 (PError "Error updating book"), db)
  end.

(** [DELETE /books/:id] *)
Definition delete_books_id (id : string) (db : list document)
  : response * list document :=
  match Book_deleteOne (QId id) db with
  | Ok (result, db') => (res_json (PDeleteResult result), db')
  | Throw _ => (mkResponse 500 (PError "Error deleting book"), db)
  end.

(** [POST /books/fix-availability] *)
Definition post_books_fix_availability (e : env) (db : list document)
  : response * list document :=
  match Book_updateMany e (QExists "available" false)
          {[ "available" := JBool true ]} db with
  | Ok (result, db') => (res_json (PUpdateResult result), db')
  | Throw _ => (mkResponse 500 (PError "Error adding availability"), db)
  end.

(** [GET /books/before/:year] *)
Definition get_books_before (year_param : string) (db : list document) : response :=
  let year := parseInt year_param in
  match Book_find (QLt "publicationYear" year) db with
  | Ok books => res_json (PBooks books)
  | Throw _ => mkResponse 500 (PError "Error fetching books")
  end.

(** ** Vocabulary of the statements *)

(** The object literal the create handler passes to [Book.create]. *)
Definition create_arg (b : gmap string json) : list (string * option json) :=
  [ ("title", b !! "title"); ("author", b !! "author"); ("genre", b !! "genre");
    ("publicationYear", b !! "publicationYear"); ("available", b !! "available") ].

(** The document constructor takes [stored] for the path [p] from the given
    value: the value casts to it, or is [undefined] and [stored] is the
    path's default; and a required path holds a valid value. *)
Definition accepts (p : schema_path) (v : option json) (stored : bson) : Prop :=
  match v with
  | Some j => cast_path p j = Some stored
  | None => path_default p = Some stored
  end ∧ (path_required p = true → check_required p (Some stored) = true).

(** The predicate the cast filter [{ available: { $exists: false } }]
    denotes. *)
Definition lacks_available (d : document) : bool :=
  Bool.eqb (bool_decide (is_Some (fields d !! "available"))) false.

(** The rewrite the backfill applies to a selected document at time [t]. *)
Definition backfill (t : Z) (d : document) : document :=
  apply_set (stamp_update t {[ "available" := BBool true ]}) d.

(** The no-break space U+00A0 and the byte order mark U+FEFF. *)
Definition nbsp : string := String (ascii_of_N 194) (String (ascii_of_N 160) "").
Definition bom : string :=
  String (ascii_of_N 239) (String (ascii_of_N 187) (String (ascii_of_N 191) "")).

(** Sample data for the concrete instances. *)
Definition sample_env : env := mkEnv 1700000000000 101%N.
Definition sample_id : string := "507f1f77bcf86cd799439011".
Definition sample_oid : ObjectId := 24912482966938930280208240657%N.
Definition sample_book : document :=
  mkDocument sample_oid
    (list_to_map
       [ ("title", BStr "1984"); ("author", BStr "George Orwell");
         ("genre", BStr "Fiction"); ("publicationYear", BNum 1949);
         ("available", BBool true);
         ("createdAt", BDate 1600000000000); ("updatedAt", BDate 1600000000000);
         ("__v", BNum 0) ]).

(** A document written before the schema had an [available] field. *)
Definition legacy_book : document :=
  mkDocument 5%N (<["title" := BStr "Emma"]> {[ "publicationYear" := BNum 1815 ]}).

(** * Properties *)

(** Membership of a concrete name or path in one of the lists of paths. *)
Ltac solve_elem :=
  unfold updatable, truthy_guarded, bookSchema;
  rewrite ?elem_of_cons, ?elem_of_nil; intuition (discriminate || congruence).

(** Case analysis on a path of the schema. *)
Ltac schema_cases :=
  unfold bookSchema; rewrite !elem_of_cons, elem_of_nil;
  intros [->|[->|[->|[->|[->|[]]]]]].

(** ** The JavaScript primitives on concrete inputs *)

Example truthy_examples :
  truthy None = false ∧ truthy (Some JNull) = false ∧
  truthy (Some (JStr "")) = false ∧ truthy (Some (JNum 0)) = false ∧
  truthy (Some (JBool false)) = false ∧
  truthy (Some (JStr "0")) = true ∧ truthy (Some (JNum (-1))) = true ∧
  truthy (Some (JArr [])) = true ∧ truthy (Some (JObj [])) = true.
Proof. repeat split. Qed.

Example trim_examples :
  trim "  The Hobbit " = "The Hobbit" ∧ trim "   " = "" ∧ trim "a b" = "a b" ∧
  trim (nbsp ++ "1984" ++ nbsp) = "1984" ∧ trim nbsp = "" ∧
  trim (bom ++ " Dune" ++ nbsp ++ " ") = "Dune" ∧
  trim ("a" ++ nbsp ++ "b") = "a" ++ nbsp ++ "b".
Proof. vm_compute. repeat split. Qed.

Example parseInt_examples :
  parseInt "1989" = Int 1989 ∧ parseInt "  42abc" = Int 42 ∧
  parseInt "-0x1A" = Int (-26) ∧ parseInt "1989.7" = Int 1989 ∧
  parseInt (nbsp ++ "1989") = Int 1989 ∧
  parseInt "9007199254740993" = Int 9007199254740992 ∧
  parseInt "abc" = NaN ∧ parseInt "" = NaN ∧ parseInt "0x" = NaN.
Proof. vm_compute. repeat split. Qed.

Example StringToNumber_examples :
  StringToNumber "1965" = Int 1965 ∧ StringToNumber " 1965.0 " = Int 1965 ∧
  StringToNumber "1e3" = Int 1000 ∧ StringToNumber "0x7AD" = Int 1965 ∧
  StringToNumber "-12" = Int (-12) ∧ StringToNumber "" = Int 0 ∧
  StringToNumber "0.5" = Fin (2 ^ 1073) ∧
  StringToNumber "1e400" = Infinity false ∧
  StringToNumber "abc" = NaN ∧ StringToNumber "19 65" = NaN ∧
  StringToNumber "-0x10" = NaN ∧ StringToNumber "1e" = NaN.
Proof. vm_compute. repeat split. Qed.

Example NumberToString_examples :
  NumberToString (Int 1984) = "1984" ∧ NumberToString (Int (-7)) = "-7" ∧
  NumberToString (Int 0) = "0" ∧
  NumberToString (StringToNumber "0.1") = "0.1" ∧
  NumberToString (StringToNumber "1965.50") = "1965.5" ∧
  NumberToString (Int (10 ^ 20)) = "100000000000000000000" ∧
  NumberToString (Int (10 ^ 21)) = "1e+21" ∧
  NumberToString (Int (2 ^ 70)) = "1.1805916207174113e+21" ∧
  NumberToString (StringToNumber "0.0000001") = "1e-7" ∧
  NumberToString (Infinity true) = "-Infinity" ∧ NumberToString NaN = "NaN".
Proof. vm_compute. repeat split. Qed.

Example cast_examples :
  cast_path title_path (JStr " Dune ") = Some (BStr "Dune") ∧
  cast_path title_path (JNum 1984) = Some (BStr "1984") ∧
  cast_path title_path (JArr []) = None ∧
  cast_path title_path (JStr nbsp) = Some (BStr "") ∧
  cast_path title_path (JNum (10 ^ 21)) = Some (BStr "1e+21") ∧
  cast_path publicationYear_path (JStr "1965") = Some (BNum 1965) ∧
  cast_path publicationYear_path (JStr "1e3") = Some (BNum 1000) ∧
  cast_path publicationYear_path (JObj [("_id", JNum 1965)]) = Some (BNum 1965) ∧
  cast_path publicationYear_path (JStr "abc") = None ∧
  cast_path available_path (JStr "yes") = Some (BBool true) ∧
  cast_path available_path (JStr "maybe") = None ∧
  castObjectId "507f1f77bcf86cd799439011" = Some sample_oid ∧
  castObjectId "abc" = None.
Proof. vm_compute. repeat split. Qed.

(** ** Numbers *)

Lemma ulps_pos : 0 < ulps.
Proof. unfold ulps. apply Z.pow_pos_nonneg; lia. Qed.

Lemma Int_inj a b : Int a = Int b → a = b.
Proof.
  unfold Int. intros [= H]. pose proof ulps_pos.
  apply Z.mul_reg_r in H; lia.
Qed.

(** On the integers, the order of the Numbers is the order of the integers. *)
Lemma num_ltb_Int a b : num_ltb (Int a) (Int b) = (a <? b).
Proof.
  unfold Int, num_ltb. pose proof ulps_pos.
  destruct (Z.ltb_spec a b); [apply Z.ltb_lt|apply Z.ltb_ge]; nia.
Qed.

(** An integer of at most 53 bits is its own Number value. *)
Lemma round_ratio_exact p : 0 < p < 2 ^ 53 → round_ratio p 1 = Int p.
Proof.
  intros [Hpos Hlt]. unfold round_ratio.
  rewrite (proj2 (Z.leb_gt p 0)) by lia.
  assert (Hlp : 0 <= Z.log2 p < 53).
  { split; [apply Z.log2_nonneg|]. apply Z.log2_lt_pow2; lia. }
  change (Z.log2 1) with 0. rewrite Z.sub_0_r.
  unfold scaled at 1.
  rewrite (proj2 (Z.leb_gt 0 (Z.log2 p - 53))) by lia.
  rewrite Z.div_1_r, Z.log2_mul_pow2 by lia.
  replace (Z.log2 p - 53 + (- (Z.log2 p - 53) + Z.log2 p - 52)) with (Z.log2 p - 52) by lia.
  rewrite Z.max_l by lia.
  unfold scaled.
  destruct (Z.leb_spec 0 (Z.log2 p - 52)) as [Hge|Hneg].
  - replace (Z.log2 p - 52) with 0 by lia.
    rewrite Z.pow_0_r, Z.mul_1_l, Z.div_1_r, Z.mod_1_r.
    change (2 * 0) with 0. change (1 <? 0) with false. change (1 =? 0) with false.
    cbn [orb andb]. change (971 <=? 0) with false. cbn [andb].
    unfold Int, ulps. reflexivity.
  - rewrite Z.div_1_r, Z.mod_1_r.
    change (2 * 0) with 0. change (1 <? 0) with false. change (1 =? 0) with false.
    cbn [orb andb]. rewrite (proj2 (Z.leb_gt 971 (Z.log2 p - 52))) by lia. cbn [andb].
    unfold Int, ulps. f_equal. rewrite <- Z.mul_assoc, <- Z.pow_add_r by lia.
    f_equal. f_equal. lia.
Qed.

Lemma round_integer_exact v : - 2 ^ 53 < v < 2 ^ 53 → round_integer v = Int v.
Proof.
  intros Hv. unfold round_integer.
  destruct (Z.ltb_spec v 0).
  - rewrite round_ratio_exact by lia. unfold Int, negate. f_equal. lia.
  - destruct (decide (v = 0)) as [->|]; [reflexivity|].
    apply round_ratio_exact. lia.
Qed.

(** ** The error monad *)

Lemma bind_Ok {A B} (a : A) (f : A → outcome B) : (Ok a ≫= f) = f a.
Proof. reflexivity. Qed.

Lemma bind_Throw {A B} (err : exn) (f : A → outcome B) : (Throw err ≫= f) = Throw err.
Proof. reflexivity. Qed.

(** A call that threw did not return a value. *)
Ltac thrown :=
  rewrite ?bind_Throw; let H := fresh in intros H; discriminate H.

(** ** Searching a collection *)

Lemma find_None_forall {A} (m : A → bool) (l : list A) :
  (∀ x, x ∈ l → m x = false) → List.find m l = None.
Proof.
  induction l as [|x l IH]; intros Hall; simpl; [done|].
  rewrite (Hall x) by by left. apply IH. intros y Hy. apply Hall. by right.
Qed.

(** The first match of a search splits the collection. *)
Lemma find_first {A} (m : A → bool) (l : list A) :
  (List.find m l = None ∧ ∀ x, x ∈ l → m x = false) ∨
  (∃ l1 x l2, l = (l1 ++ x :: l2)%list ∧ (∀ y, y ∈ l1 → m y = false) ∧
              m x = true ∧ List.find m l = Some x).
Proof.
  induction l as [|a l IH]; simpl.
  - left. split; [done|]. intros x Hx. by apply elem_of_nil in Hx.
  - destruct (m a) eqn:Ha.
    + right. exists [], a, l. split; [done|]. split; [|done].
      intros y Hy. by apply elem_of_nil in Hy.
    + destruct IH as [[Hnone Hall]|(l1 & x & l2 & -> & Hl1 & Hx & Hfind)].
      * left. split; [done|]. intros x Hx.
        apply elem_of_cons in Hx as [->|Hx]; auto.
      * right. exists (a :: l1), x, l2. split; [done|]. split; [|done].
        intros y Hy. apply elem_of_cons in Hy as [->|Hy]; auto.
Qed.

Lemma filter_sublist {A} (m : A → bool) (l : list A) : sublist (List.filter m l) l.
Proof.
  induction l as [|a l IH]; simpl; [constructor|].
  destruct (m a); by constructor.
Qed.

Lemma filter_none {A} (m : A → bool) (l : list A) :
  (∀ x, x ∈ l → m x = false) → List.filter m l = [].
Proof.
  induction l as [|a l IH]; intros Hall; simpl; [done|].
  rewrite (Hall a) by by left. apply IH. intros x Hx. apply Hall. by right.
Qed.

Lemma fmap_unselected {A} (m : A → bool) (f : A → A) (l : list A) :
  (∀ x, x ∈ l → m x = false) → (λ x, if m x then f x else x) <$> l = l.
Proof.
  induction l as [|a l IH]; intros Hall; simpl; [done|].
  rewrite (Hall a) by by left. f_equal. apply IH. intros x Hx. apply Hall. by right.
Qed.

Lemma find_update_first (m : document → bool) f db d :
  List.find m db = Some d → m (f d) = true →
  List.find m (update_first m f db) = Some (f d).
Proof.
  intros Hfind Hm. induction db as [|x rest IH]; simpl in *; [done|].
  destruct (m x) eqn:Hx; simpl.
  - injection Hfind as ->. by rewrite Hm.
  - rewrite Hx. auto.
Qed.

(** ** Casting filters *)

Lemma cast_query_QId id oid :
  castObjectId id = Some oid → cast_query (QId id) = Ok (has_id oid).
Proof. intros H. unfold cast_query. by rewrite H. Qed.

Lemma cast_query_title title :
  cast_query (QEq "title" title) =
    Ok (λ d, bool_decide (fields d !! "title" = Some (BStr (trim title)))).
Proof. reflexivity. Qed.

Lemma cast_query_before y :
  cast_query (QLt "publicationYear" (Int y)) =
    Ok (λ d, match fields d !! "publicationYear" with
             | Some (BNum n) => num_ltb n (Int y)
             | _ => false
             end).
Proof. reflexivity. Qed.

Lemma has_id_false oid d : _id d ≠ oid → has_id oid d = false.
Proof. intros Hne. unfold has_id. by apply N.eqb_neq. Qed.

(** ** The schema *)

Lemma schema_lookup_elem p : p ∈ bookSchema → schema_lookup (path_name p) = Some p.
Proof. schema_cases; reflexivity. Qed.

Lemma schema_name_not_stamp p : p ∈ bookSchema → path_name p ≠ "updatedAt".
Proof. schema_cases; discriminate. Qed.

Lemma schema_lookup_outside k : k ∉ updatable → schema_lookup k = None.
Proof.
  intros Hk. apply find_None_forall. intros p.
  schema_cases; apply String.eqb_neq; intros <-; apply Hk; solve_elem.
Qed.

Lemma bookSchema_NoDup : NoDup (path_name <$> bookSchema).
Proof.
  unfold bookSchema. simpl. repeat (apply NoDup_cons; split; [solve_elem|]).
  apply NoDup_nil_2.
Qed.

(** ** The [$set] object of the update handler *)

Lemma truthy_is_Some v : truthy v = true → is_Some v.
Proof. destruct v; [eauto | discriminate]. Qed.

Lemma is_boolean_is_Some v : is_boolean v = true → is_Some v.
Proof. destruct v; [eauto | discriminate]. Qed.

Lemma lookup_spread_and_prop target cond key v k :
  (cond = true → is_Some v) →
  spread target (and_prop cond key v) !! k =
    if cond && bool_decide (k = key) then v else target !! k.
Proof.
  intros Hv. unfold spread, and_prop. destruct cond; simpl; [|done].
  destruct (Hv eq_refl) as [x ->]. simpl.
  rewrite lookup_union. case_bool_decide as Hk.
  - subst k. rewrite lookup_singleton_eq. by destruct (target !! key).
  - rewrite lookup_singleton_ne by done. by destruct (target !! k).
Qed.

(** What the [$set] object holds at each key. *)
Lemma update_set_lookup b k :
  update_set b !! k =
    if bool_decide (k ∈ truthy_guarded)
    then (if truthy (b !! k) then b !! k else None)
    else if bool_decide (k = "available")
    then (if is_boolean (b !! k) then b !! k else None)
    else None.
Proof.
  unfold update_set.
  rewrite !lookup_spread_and_prop
    by (apply truthy_is_Some || apply is_boolean_is_Some).
  rewrite lookup_empty. unfold truthy_guarded.
  rewrite (bool_decide_ext (k ∈ _)
             (k = "genre" ∨ k = "publicationYear" ∨ k = "title" ∨ k = "author"))
    by (rewrite !elem_of_cons, elem_of_nil; tauto).
  repeat case_bool_decide; subst; simpl; try discriminate; try tauto.
  all: rewrite ?andb_true_r, ?andb_false_r.
  all: try (by destruct (truthy _)).
  all: try (by destruct (is_boolean _)).
  all: done.
Qed.

Lemma update_set_guarded b k :
  k ∈ truthy_guarded →
  update_set b !! k = if truthy (b !! k) then b !! k else None.
Proof. intros Hk. by rewrite update_set_lookup, bool_decide_eq_true_2. Qed.

Lemma update_set_available b :
  update_set b !! "available" =
    if is_boolean (b !! "available") then b !! "available" else None.
Proof.
  rewrite update_set_lookup, bool_decide_eq_false_2 by solve_elem.
  by rewrite bool_decide_eq_true_2.
Qed.

Lemma update_set_outside b k : k ∉ updatable → update_set b !! k = None.
Proof.
  intros Hk. rewrite update_set_lookup.
  rewrite (bool_decide_eq_false_2 (k ∈ truthy_guarded)).
  - rewrite bool_decide_eq_false_2; [done|]. intros ->. apply Hk. by left.
  - intros Hin. apply Hk. by right.
Qed.

(** The three kinds of keys. *)
Lemma key_cases k : k ∈ truthy_guarded ∨ k = "available" ∨ k ∉ updatable.
Proof.
  destruct (decide (k ∈ truthy_guarded)) as [|Hg]; [by left|].
  destruct (decide (k = "available")) as [|Ha]; [by right; left|].
  right; right. unfold updatable. rewrite elem_of_cons. tauto.
Qed.

Lemma update_set_agree b b' :
  (∀ k, k ∈ updatable → b' !! k = b !! k) → update_set b' = update_set b.
Proof.
  intros Hagree. apply map_eq. intros k.
  destruct (key_cases k) as [Hk|[->|Hk]].
  - rewrite !update_set_guarded by done. by rewrite Hagree by by right.
  - rewrite !update_set_available. by rewrite Hagree by by left.
  - by rewrite !update_set_outside.
Qed.

Lemma update_set_empty b :
  (∀ k, k ∈ truthy_guarded → truthy (b !! k) = false) →
  is_boolean (b !! "available") = false →
  update_set b = ∅.
Proof.
  intros Hfalsy Hbool. apply map_eq. intros k. rewrite lookup_empty.
  destruct (key_cases k) as [Hk|[->|Hk]].
  - by rewrite update_set_guarded, Hfalsy.
  - by rewrite update_set_available, Hbool.
  - by rewrite update_set_outside.
Qed.

(** ** Casting an update *)

Lemma cast_set_lookup paths upd changes k :
  cast_set paths upd = Ok changes →
  changes !! k =
    match List.find (λ p, String.eqb (path_name p) k) paths with
    | Some p => upd !! k ≫= cast_path p
    | None => None
    end.
Proof.
  revert changes. induction paths as [|p rest IH]; intros changes; cbn.
  - intros [= <-]. apply lookup_empty.
  - destruct (cast_set rest upd) as [changes'|] eqn:Hrest; cbn; [|thrown].
    specialize (IH _ eq_refl).
    destruct (String.eqb_spec (path_name p) k) as [->|Hne].
    + destruct (upd !! k) as [v|] eqn:Hv; cbn.
      * destruct (cast_path p v) as [b|]; cbn; [|thrown].
        intros [= <-]. by rewrite lookup_insert_eq.
      * intros [= <-]. rewrite IH. by destruct (List.find _ rest).
    + destruct (upd !! path_name p) as [v|]; cbn.
      * destruct (cast_path p v) as [b|]; cbn; [|thrown].
        intros [= <-]. by rewrite lookup_insert_ne.
      * by intros [= <-].
Qed.

Lemma cast_set_accepts paths upd :
  (∀ p v, p ∈ paths → upd !! path_name p = Some v → is_Some (cast_path p v)) →
  ∃ changes, cast_set paths upd = Ok changes.
Proof.
  induction paths as [|p rest IH]; intros Hcast; cbn; [eauto|].
  destruct IH as [changes' ->].
  { intros q v Hq. apply Hcast. by right. }
  cbn. destruct (upd !! path_name p) as [v|] eqn:Hv; [|eauto].
  destruct (Hcast p v) as [b ->]; [by left|done|]. cbn. eauto.
Qed.

Lemma cast_set_rejects paths upd p v :
  p ∈ paths → upd !! path_name p = Some v → cast_path p v = None →
  ∃ err, cast_set paths upd = Throw err.
Proof.
  induction paths as [|q rest IH]; intros Hp Hv Hnone; [by apply elem_of_nil in Hp|].
  cbn. destruct (cast_set rest upd) as [changes'|err] eqn:Hrest; cbn; [|eauto].
  apply elem_of_cons in Hp as [->|Hp].
  - rewrite Hv, Hnone. cbn. eauto.
  - destruct (IH Hp Hv Hnone) as [err Herr]. congruence.
Qed.

Lemma cast_set_Ok_casts paths upd changes :
  cast_set paths upd = Ok changes →
  ∀ p v, p ∈ paths → upd !! path_name p = Some v → is_Some (cast_path p v).
Proof.
  intros Hcast p v Hp Hv.
  destruct (cast_path p v) as [x|] eqn:Hx; [eauto|].
  destruct (cast_set_rejects paths upd p v Hp Hv Hx) as [err Herr]. congruence.
Qed.

Lemma apply_set_lookup changes d k :
  fields (apply_set changes d) !! k =
    match changes !! k with
    | Some v => Some v
    | None => fields d !! k
    end.
Proof.
  unfold apply_set. simpl. rewrite lookup_union.
  destruct (changes !! k), (fields d !! k); done.
Qed.

Lemma stamp_update_lookup t changes k :
  stamp_update t changes !! k =
    if bool_decide (k = "updatedAt") then Some (BDate t) else changes !! k.
Proof.
  unfold stamp_update, timestamps. case_bool_decide as Hk.
  - subst k. apply lookup_insert_eq.
  - by apply lookup_insert_ne.
Qed.

(** A schema field of the matched document after an accepted update. *)
Lemma updated_field_lookup t upd changes d p :
  p ∈ bookSchema →
  cast_set bookSchema upd = Ok changes →
  fields (apply_set (stamp_update t changes) d) !! path_name p =
    match upd !! path_name p ≫= cast_path p with
    | Some v => Some v
    | None => fields d !! path_name p
    end.
Proof.
  intros Hp Hcast. rewrite apply_set_lookup, stamp_update_lookup.
  rewrite bool_decide_eq_false_2 by by apply schema_name_not_stamp.
  rewrite (cast_set_lookup _ _ _ _ Hcast).
  fold (schema_lookup (path_name p)). by rewrite schema_lookup_elem.
Qed.

(** ** The update handler *)

Lemma put_books_id_matched e id b db oid d changes :
  castObjectId id = Some oid →
  List.find (has_id oid) db = Some d →
  cast_set bookSchema (update_set b) = Ok changes →
  let d' := apply_set (stamp_update (now e) changes) d in
  put_books_id e id b db =
    (res_json (PUpdateResult
                 (mkUpdateResult true 1 (if bool_decide (d' = d) then 0 else 1)%nat)),
     update_first (has_id oid) (apply_set (stamp_update (now e) changes)) db)
  ∧ List.find (has_id oid)
      (update_first (has_id oid) (apply_set (stamp_update (now e) changes)) db)
    = Some d'.
Proof.
  intros Hid Hfind Hcast d'. split.
  - unfold put_books_id, Book_updateOne.
    rewrite (cast_query_QId _ _ Hid), bind_Ok, Hcast, bind_Ok.
    by rewrite Hfind.
  - apply find_update_first; [done|].
    apply find_some in Hfind as [_ Hm]. exact Hm.
Qed.

Lemma put_books_id_rejected e id b db err :
  cast_set bookSchema (update_set b) = Throw err →
  put_books_id e id b db = (mkResponse 500 (PError "Error updating book"), db).
Proof.
  intros Hcast. unfold put_books_id, Book_updateOne.
  destruct (cast_query (QId id)) as [m|]; [|done].
  by rewrite bind_Ok, Hcast.
Qed.

(** C1, as amended.  For every request, the update handler sends a body
    field among title, author, genre and publicationYear in its [$set]
    exactly when the supplied value is truthy, and [available] exactly when
    the supplied value is a boolean.  On a well-formed identifier of a stored
    record, and when every value sent casts to the type of its schema path,
    the request succeeds and each of the four fields afterwards holds the
    cast of the supplied value (text trimmed) if that value is truthy and its
    old value otherwise, while [available] holds the supplied boolean,
    [false] included, and its old value for any other supplied value. *)
Theorem put_books_id_overwrites e id b db :
  (∀ k v, k ∈ truthy_guarded →
          update_set b !! k = Some v ↔ b !! k = Some v ∧ truthy (Some v) = true) ∧
  (∀ v, update_set b !! "available" = Some v ↔
        b !! "available" = Some v ∧ is_boolean (Some v) = true) ∧
  (∀ oid d,
     castObjectId id = Some oid →
     List.find (has_id oid) db = Some d →
     (∀ p v, p ∈ bookSchema → update_set b !! path_name p = Some v →
             is_Some (cast_path p v)) →
     ∃ result db' d',
       put_books_id e id b db = (mkResponse 200 (PUpdateResult result), db') ∧
       List.find (has_id oid) db' = Some d' ∧
       (∀ p, p ∈ bookSchema → path_name p ∈ truthy_guarded →
             fields d' !! path_name p =
               if truthy (b !! path_name p) then b !! path_name p ≫= cast_path p
               else fields d !! path_name p) ∧
       fields d' !! "available" =
         match b !! "available" with
         | Some (JBool a) => Some (BBool a)
         | _ => fields d !! "available"
         end).
Proof.
  split; [|split].
  - intros k v Hk. rewrite update_set_guarded by done.
    destruct (b !! k) as [w|] eqn:Hw; [|cbn; intuition congruence].
    destruct (truthy (Some w)) eqn:Ht; (split; [intros ?|intros [? ?]]);
      simplify_eq; intuition congruence.
  - intros v. rewrite update_set_available.
    destruct (b !! "available") as [w|] eqn:Hw; [|cbn; intuition congruence].
    destruct w; cbn; (split; [intros ?|intros [? ?]]); simplify_eq/=; done.
  - intros oid d Hid Hfind Hcasts.
    destruct (cast_set_accepts bookSchema (update_set b) Hcasts) as [changes Hcast].
    destruct (put_books_id_matched e id b db oid d changes Hid Hfind Hcast)
      as [Hput Hfind'].
    eexists _, _, _. split; [exact Hput|]. split; [exact Hfind'|]. split.
    + intros p Hp Hk. rewrite (updated_field_lookup _ _ _ _ _ Hp Hcast).
      rewrite update_set_guarded by done.
      destruct (truthy (b !! path_name p)) eqn:Ht; [|done].
      destruct (b !! path_name p) as [v|] eqn:Hv; [|done]. simpl.
      destruct (Hcasts p v Hp) as [x Hx].
      { by rewrite update_set_guarded, Hv, Ht. }
      by rewrite Hx.
    + etrans; [exact (updated_field_lookup _ _ _ _ available_path
                        ltac:(solve_elem) Hcast)|].
      simpl. rewrite update_set_available.
      destruct (b !! "available") as [[]|]; done.
Qed.

(** Instance of C1: a body with a new genre padded with a no-break space, an
    empty title and [available: false] changes the genre and the
    availability and keeps the title; the genre and the availability are
    sent, the title is not. *)
Lemma put_books_id_overwrites_witness :
  let b : gmap string json :=
    <["genre" := JStr (nbsp ++ "Dystopia")]>
      (<["title" := JStr ""]> {[ "available" := JBool false ]}) in
  (update_set b !! "genre" = Some (JStr (nbsp ++ "Dystopia")) ∧
   update_set b !! "available" = Some (JBool false) ∧
   update_set b !! "title" = None) ∧
  ∃ result db' d',
    put_books_id sample_env sample_id b [sample_book] =
      (mkResponse 200 (PUpdateResult result), db') ∧
    List.find (has_id sample_oid) db' = Some d' ∧
    fields d' !! "genre" = Some (BStr "Dystopia") ∧
    fields d' !! "title" = Some (BStr "1984") ∧
    fields d' !! "available" = Some (BBool false).
Proof.
  intros b.
  destruct (put_books_id_overwrites sample_env sample_id b [sample_book])
    as (Hsent & Hsent_available & Hstored).
  split.
  { split; [|split].
    - apply (Hsent "genre"); [solve_elem|]. vm_compute. split; reflexivity.
    - apply Hsent_available. vm_compute. split; reflexivity.
    - destruct (update_set b !! "title") as [v|] eqn:Hv; [|reflexivity].
      apply (Hsent "title") in Hv as [Hb Ht]; [|solve_elem].
      vm_compute in Hb. injection Hb as <-. discriminate Ht. }
  assert (Hcasts : ∀ p v, p ∈ bookSchema → update_set b !! path_name p = Some v →
                          is_Some (cast_path p v)).
  { eapply cast_set_Ok_casts. vm_compute. reflexivity. }
  destruct (Hstored sample_oid sample_book
              ltac:(vm_compute; reflexivity) ltac:(vm_compute; reflexivity) Hcasts)
    as (result & db' & d' & Hput & Hfind & Htext & Havail).
  exists result, db', d'. split; [exact Hput|]. split; [exact Hfind|].
  split; [|split].
  - etrans; [exact (Htext genre_path ltac:(solve_elem) ltac:(solve_elem))|].
    vm_compute. reflexivity.
  - etrans; [exact (Htext title_path ltac:(solve_elem) ltac:(solve_elem))|].
    vm_compute. reflexivity.
  - etrans; [exact Havail|]. vm_compute. reflexivity.
Defined.

(** Against C1 as stated: the supplied publicationYear ["abc"] is truthy and
    is sent, yet the request is answered with 500 and the stored year stays
    1949, because the value does not cast to Number. *)
Lemma put_books_id_truthy_year_not_written :
  let b : gmap string json := {[ "publicationYear" := JStr "abc" ]} in
  truthy (b !! "publicationYear") = true ∧
  update_set b !! "publicationYear" = Some (JStr "abc") ∧
  put_books_id sample_env sample_id b [sample_book] =
    (mkResponse 500 (PError "Error updating book"), [sample_book]) ∧
  fields sample_book !! "publicationYear" = Some (BNum 1949).
Proof. vm_compute. repeat split. Qed.

(** C8, as amended.  For every stored Book and every update whose body
    supplies, of the five updatable fields, only a truthy genre that casts to
    text, the request succeeds, the record's genre afterwards is the supplied
    text with the surrounding white space trimmed, and its title, author,
    publicationYear and available are unchanged. *)
Theorem put_books_id_genre_only e id b db oid d g s :
  castObjectId id = Some oid →
  List.find (has_id oid) db = Some d →
  b !! "genre" = Some g → truthy (Some g) = true → castString g = Some (BStr s) →
  b !! "title" = None → b !! "author" = None →
  b !! "publicationYear" = None → b !! "available" = None →
  ∃ result db' d',
    put_books_id e id b db = (mkResponse 200 (PUpdateResult result), db') ∧
    List.find (has_id oid) db' = Some d' ∧
    fields d' !! "genre" = Some (BStr (trim s)) ∧
    fields d' !! "title" = fields d !! "title" ∧
    fields d' !! "author" = fields d !! "author" ∧
    fields d' !! "publicationYear" = fields d !! "publicationYear" ∧
    fields d' !! "available" = fields d !! "available".
Proof.
  intros Hid Hfind Hg Htruthy Hcastg Ht Ha Hy Hv.
  assert (Hset : ∀ p, p ∈ bookSchema →
            update_set b !! path_name p =
              if String.eqb (path_name p) "genre" then Some g else None).
  { intros p. schema_cases; rewrite update_set_lookup; simpl;
      by rewrite ?Ht, ?Ha, ?Hy, ?Hv, ?Hg, ?Htruthy. }
  assert (Hgenre : cast_path genre_path g = Some (BStr (trim s))).
  { unfold cast_path. simpl. by rewrite Hcastg. }
  destruct (cast_set_accepts bookSchema (update_set b)) as [changes Hcast].
  { intros p v Hp. rewrite (Hset p Hp). revert Hp.
    schema_cases; simpl; intros [= <-]. rewrite Hgenre. eauto. }
  destruct (put_books_id_matched e id b db oid d changes Hid Hfind Hcast)
    as [Hput Hfind'].
  eexists _, _, _. split; [exact Hput|]. split; [exact Hfind'|].
  repeat split.
  - etrans; [exact (updated_field_lookup _ _ _ _ genre_path ltac:(solve_elem) Hcast)|].
    rewrite Hset by solve_elem. simpl. by rewrite Hgenre.
  - etrans; [exact (updated_field_lookup _ _ _ _ title_path ltac:(solve_elem) Hcast)|].
    by rewrite Hset by solve_elem.
  - etrans; [exact (updated_field_lookup _ _ _ _ author_path ltac:(solve_elem) Hcast)|].
    by rewrite Hset by solve_elem.
  - etrans; [exact (updated_field_lookup _ _ _ _ publicationYear_path
                      ltac:(solve_elem) Hcast)|].
    by rewrite Hset by solve_elem.
  - etrans; [exact (updated_field_lookup _ _ _ _ available_path
                      ltac:(solve_elem) Hcast)|].
    by rewrite Hset by solve_elem.
Qed.

(** Instance of C8: a padded genre alone is stored trimmed and the other
    four fields keep their values. *)
Lemma put_books_id_genre_only_witness :
  let b : gmap string json := {[ "genre" := JStr " Science Fiction " ]} in
  ∃ result db' d',
    put_books_id sample_env sample_id b [sample_book] =
      (mkResponse 200 (PUpdateResult result), db') ∧
    List.find (has_id sample_oid) db' = Some d' ∧
    fields d' !! "genre" = Some (BStr (trim " Science Fiction ")) ∧
    fields d' !! "title" = fields sample_book !! "title" ∧
    fields d' !! "author" = fields sample_book !! "author" ∧
    fields d' !! "publicationYear" = fields sample_book !! "publicationYear" ∧
    fields d' !! "available" = fields sample_book !! "available".
Proof.
  intros b.
  apply (put_books_id_genre_only sample_env sample_id b [sample_book] sample_oid
           sample_book (JStr " Science Fiction ") " Science Fiction ");
    vm_compute; reflexivity.
Defined.

(** Against C8 as stated: the body supplies only the truthy genre
    [" Science Fiction "], and the genre stored afterwards is
    ["Science Fiction"], not the supplied value. *)
Lemma put_books_id_genre_stored_trimmed :
  let b : gmap string json := {[ "genre" := JStr " Science Fiction " ]} in
  let d' := mkDocument sample_oid
              (<["genre" := BStr "Science Fiction"]>
                 (<["updatedAt" := BDate 1700000000000]> (fields sample_book))) in
  b !! "genre" = Some (JStr " Science Fiction ") ∧
  put_books_id sample_env sample_id b [sample_book] =
    (mkResponse 200 (PUpdateResult (mkUpdateResult true 1 1)), [d']) ∧
  fields d' !! "genre" = Some (BStr "Science Fiction") ∧
  fields d' !! "genre" ≠ Some (BStr " Science Fiction ").
Proof. vm_compute. repeat split. discriminate. Qed.

(** C10, as amended.  The [$set] object of the update handler holds no key
    other than title, author, genre, publicationYear and available; two
    bodies that agree on these five keys get the same response and leave the
    same collection; on a well-formed identifier of a stored record, the
    update changes no field of the record other than these five and the
    [updatedAt] time stamp; and a body with no acceptable field (every one of
    the four falsy, available not a boolean) is answered with 200 and leaves
    the record as it was except for [updatedAt], set to the time of the
    request. *)
Theorem put_books_id_frame e id b db :
  (∀ k, k ∉ updatable → update_set b !! k = None) ∧
  (∀ b' : gmap string json,
     (∀ k, k ∈ updatable → b' !! k = b !! k) →
     put_books_id e id b' db = put_books_id e id b db) ∧
  (∀ oid d,
     castObjectId id = Some oid → List.find (has_id oid) db = Some d →
     ∃ d',
       List.find (has_id oid) (put_books_id e id b db).2 = Some d' ∧
       _id d' = _id d ∧
       (∀ k, k ∉ updatable → k ≠ "updatedAt" → fields d' !! k = fields d !! k) ∧
       ((∀ k, k ∈ truthy_guarded → truthy (b !! k) = false) →
        is_boolean (b !! "available") = false →
        (put_books_id e id b db).1 =
          mkResponse 200
            (PUpdateResult
               (mkUpdateResult true 1 (if bool_decide (d' = d) then 0 else 1)%nat)) ∧
        fields d' = <["updatedAt" := BDate (now e)]> (fields d))).
Proof.
  split; [|split].
  - apply update_set_outside.
  - intros b' Hagree. unfold put_books_id.
    by rewrite (update_set_agree b b').
  - intros oid d Hid Hfind.
    destruct (cast_set bookSchema (update_set b)) as [changes|err] eqn:Hcast.
    + destruct (put_books_id_matched e id b db oid d changes Hid Hfind Hcast)
        as [Hput Hfind'].
      rewrite Hput. simpl. eexists. split; [exact Hfind'|]. split; [done|]. split.
      * intros k Hk Hstamp. rewrite apply_set_lookup, stamp_update_lookup.
        rewrite bool_decide_eq_false_2 by done.
        rewrite (cast_set_lookup _ _ _ k Hcast).
        fold (schema_lookup k). by rewrite schema_lookup_outside.
      * intros Hfalsy Hbool. split; [done|].
        rewrite (update_set_empty b Hfalsy Hbool) in Hcast. injection Hcast as <-.
        apply map_eq. intros k. rewrite apply_set_lookup, stamp_update_lookup.
        destruct (decide (k = "updatedAt")) as [->|Hne].
        -- by rewrite lookup_insert_eq.
        -- rewrite bool_decide_eq_false_2 by done.
           by rewrite lookup_empty, lookup_insert_ne.
    + rewrite (put_books_id_rejected e id b db err Hcast). simpl.
      exists d. split; [done|]. split; [done|]. split; [done|].
      intros Hfalsy Hbool. exfalso.
      rewrite (update_set_empty b Hfalsy Hbool) in Hcast. discriminate Hcast.
Qed.

(** Instance of C10: an empty title, a non-boolean available and an unknown
    key leave every field but [updatedAt] as it was. *)
Lemma put_books_id_frame_witness :
  let b : gmap string json :=
    <["title" := JStr ""]> (<["available" := JStr "no"]> {[ "isbn" := JStr "978-0" ]}) in
  ∃ d',
    List.find (has_id sample_oid) (put_books_id sample_env sample_id b [sample_book]).2
      = Some d' ∧
    fields d' !! "__v" = fields sample_book !! "__v" ∧
    fields d' !! "isbn" = None ∧
    fields d' = <["updatedAt" := BDate (now sample_env)]> (fields sample_book).
Proof.
  intros b.
  destruct (put_books_id_frame sample_env sample_id b [sample_book])
    as (_ & _ & Hrecord).
  destruct (Hrecord sample_oid sample_book
              ltac:(vm_compute; reflexivity) ltac:(vm_compute; reflexivity))
    as (d' & Hfind & _ & Hframe & Hnoop).
  exists d'. split; [exact Hfind|]. split; [|split].
  - apply Hframe; [solve_elem|discriminate].
  - etrans; [apply Hframe; [solve_elem|discriminate]|]. vm_compute. reflexivity.
  - apply Hnoop; [|vm_compute; reflexivity].
    intros k. unfold truthy_guarded. rewrite !elem_of_cons, elem_of_nil.
    intros [->|[->|[->|[->|[]]]]]; vm_compute; reflexivity.
Defined.

(** Against C10 as stated: with an empty body nothing is sent, yet the
    matched record does not stay entirely unchanged: its [updatedAt] moves
    to the time of the request, and the update reports one modified
    document. *)
Lemma put_books_id_empty_body_changes_record :
  let d' := mkDocument sample_oid
              (<["updatedAt" := BDate 1700000000000]> (fields sample_book)) in
  update_set ∅ = ∅ ∧
  put_books_id sample_env sample_id ∅ [sample_book] =
    (mkResponse 200 (PUpdateResult (mkUpdateResult true 1 1)), [d']) ∧
  fields d' !! "updatedAt" = Some (BDate 1700000000000) ∧
  fields sample_book !! "updatedAt" = Some (BDate 1600000000000) ∧
  d' ≠ sample_book.
Proof. vm_compute. repeat split. discriminate. Qed.

(** ** The delete handler *)

(** C5.  Deleting by an identifier that matches no stored record is not an
    error: the response is 200 with an acknowledgment whose deletedCount is
    0, and the collection is unchanged.  An identifier is an ObjectId, the
    value 24 hexadecimal characters spell; a path segment of another shape
    is a malformed identifier, a case of its own. *)
Theorem delete_books_id_absent id db oid :
  castObjectId id = Some oid →
  (∀ d, d ∈ db → _id d ≠ oid) →
  delete_books_id id db = (mkResponse 200 (PDeleteResult (mkDeleteResult true 0)), db).
Proof.
  intros Hid Habsent. unfold delete_books_id, Book_deleteOne.
  rewrite (cast_query_QId _ _ Hid), bind_Ok.
  rewrite find_None_forall; [done|].
  intros d Hd. apply has_id_false. by apply Habsent.
Qed.

(** Instance of C5: an identifier of the right shape that no record
    carries. *)
Lemma delete_books_id_absent_witness :
  delete_books_id "507f191e810c19729de860ea" [sample_book] =
    (mkResponse 200 (PDeleteResult (mkDeleteResult true 0)), [sample_book]).
Proof.
  apply (delete_books_id_absent "507f191e810c19729de860ea" [sample_book]
           24912452986661892666266509546%N).
  - vm_compute. reflexivity.
  - intros d Hd. apply list_elem_of_singleton in Hd as ->. vm_compute. discriminate.
Defined.

(** ** The read handlers *)

(** C4, as amended.  For every title lookup, either no stored record's title
    equals the path title with its surrounding white space trimmed, and the
    response is 404 with a message body, or the response is 200 with the
    first record, in collection order, whose title equals the trimmed path
    title. *)
Theorem get_books_title_first_match title db :
  (get_books_title title db = mkResponse 404 (PMessage "Book not found") ∧
   ∀ d, d ∈ db → fields d !! "title" ≠ Some (BStr (trim title)))
  ∨
  (∃ l1 d l2,
     db = (l1 ++ d :: l2)%list ∧
     (∀ x, x ∈ l1 → fields x !! "title" ≠ Some (BStr (trim title))) ∧
     fields d !! "title" = Some (BStr (trim title)) ∧
     get_books_title title db = mkResponse 200 (PBook d)).
Proof.
  unfold get_books_title, Book_findOne. rewrite cast_query_title, bind_Ok.
  destruct (find_first
              (λ d, bool_decide (fields d !! "title" = Some (BStr (trim title)))) db)
    as [[Hnone Hall]|(l1 & d & l2 & Hdb & Hl1 & Hd & Hfind)].
  - left. rewrite Hnone. split; [done|].
    intros d Hd. specialize (Hall d Hd). by apply bool_decide_eq_false in Hall.
  - right. exists l1, d, l2. rewrite Hfind. split; [done|]. split; [|split].
    + intros x Hx. specialize (Hl1 x Hx). by apply bool_decide_eq_false in Hl1.
    + by apply bool_decide_eq_true in Hd.
    + done.
Qed.

(** Instance of C4: looking up a title in a one-record collection. *)
Lemma get_books_title_first_match_witness :
  (get_books_title "Dune" [sample_book] = mkResponse 404 (PMessage "Book not found") ∧
   ∀ d, d ∈ [sample_book] → fields d !! "title" ≠ Some (BStr (trim "Dune")))
  ∨
  (∃ l1 d l2,
     [sample_book] = (l1 ++ d :: l2)%list ∧
     (∀ x, x ∈ l1 → fields x !! "title" ≠ Some (BStr (trim "Dune"))) ∧
     fields d !! "title" = Some (BStr (trim "Dune")) ∧
     get_books_title "Dune" [sample_book] = mkResponse 200 (PBook d)).
Proof. exact (get_books_title_first_match "Dune" [sample_book]). Defined.

(** Against C4 as stated: no stored record has exactly the title [" 1984"]
    (with its leading space), yet the lookup answers 200 with the record
    titled ["1984"], because the filter value goes through the path's trim
    setter. *)
Lemma get_books_title_trims_parameter :
  (∀ d, d ∈ [sample_book] → fields d !! "title" ≠ Some (BStr " 1984")) ∧
  get_books_title " 1984" [sample_book] = mkResponse 200 (PBook sample_book).
Proof.
  split.
  - intros d Hd. apply list_elem_of_singleton in Hd as ->. vm_compute. discriminate.
  - vm_compute. reflexivity.
Qed.

(** C2.  For every collection and every year segment that [parseInt] reads
    as an integer [y] (the segment's digits, after any leading white space,
    rounded to a Number as JavaScript does), the before-year query answers
    200 with exactly the records whose publicationYear is a number strictly
    less than [y], in collection order: for a record whose year is the
    integer [z], that is [z < y]; a record whose publicationYear equals [y]
    is not returned. *)
Theorem get_books_before_strict year_param y db :
  parseInt year_param = Int y →
  ∃ books,
    get_books_before year_param db = mkResponse 200 (PBooks books) ∧
    sublist books db ∧
    (∀ d, d ∈ books ↔
          d ∈ db ∧
          ∃ n, fields d !! "publicationYear" = Some (BNum n) ∧ num_ltb n (Int y) = true) ∧
    (∀ d z, fields d !! "publicationYear" = Some (BNum (Int z)) →
            d ∈ books ↔ d ∈ db ∧ z < y) ∧
    (∀ d, fields d !! "publicationYear" = Some (BNum (Int y)) → d ∉ books).
Proof.
  intros Hparse. unfold get_books_before, Book_find.
  rewrite Hparse, cast_query_before, bind_Ok.
  eexists. split; [reflexivity|]. split; [apply filter_sublist|].
  assert (Hmem : ∀ d,
    d ∈ List.filter (λ d, match fields d !! "publicationYear" with
                          | Some (BNum n) => num_ltb n (Int y)
                          | _ => false
                          end) db ↔
    d ∈ db ∧
    ∃ n, fields d !! "publicationYear" = Some (BNum n) ∧ num_ltb n (Int y) = true).
  { intros d. rewrite !list_elem_of_In, filter_In.
    split; intros [Hd Hlt]; (split; [done|]).
    - destruct (fields d !! "publicationYear") as [[]|]; try done.
      eexists. by split.
    - by destruct Hlt as (n & -> & Hlt). }
  split; [exact Hmem|]. split.
  - intros d z Hz. rewrite Hmem. split.
    + intros (Hd & n & Hn & Hlt). split; [done|].
      rewrite Hz in Hn. injection Hn as <-.
      rewrite num_ltb_Int in Hlt. by apply Z.ltb_lt.
    + intros [Hd Hlt]. split; [done|]. exists (Int z). split; [done|].
      rewrite num_ltb_Int. by apply Z.ltb_lt.
  - intros d Hy Hd. apply Hmem in Hd as (_ & n & Hn & Hlt).
    rewrite Hy in Hn. injection Hn as <-.
    rewrite num_ltb_Int in Hlt. apply Z.ltb_lt in Hlt. lia.
Qed.

(** Instance of C2: with the segment ["1989"], the book of 1949 is returned
    and a book of 1989 is not. *)
Lemma get_books_before_strict_witness :
  ∃ books,
    get_books_before "1989"
      [sample_book; mkDocument 7%N {[ "publicationYear" := BNum (Int 1989) ]}]
      = mkResponse 200 (PBooks books) ∧
    sample_book ∈ books ∧
    mkDocument 7%N {[ "publicationYear" := BNum (Int 1989) ]} ∉ books.
Proof.
  destruct (get_books_before_strict "1989" 1989
              [sample_book; mkDocument 7%N {[ "publicationYear" := BNum (Int 1989) ]}]
              ltac:(vm_compute; reflexivity))
    as (books & Hresp & _ & _ & Hmem & Hexcl).
  exists books. split; [exact Hresp|]. split.
  - apply (Hmem sample_book 1949); [vm_compute; reflexivity|]. split; [by left|lia].
  - apply Hexcl. vm_compute. reflexivity.
Defined.

(** The segment [9007199254740993] is read as the Number 9007199254740992,
    as is the segment [9007199254740992] behind a no-break space: a record
    of the year 9007199254740992 is not returned. *)
Example get_books_before_rounds :
  let d := mkDocument 7%N {[ "publicationYear" := BNum (Int 9007199254740992) ]} in
  get_books_before "9007199254740993" [sample_book; d]
    = mkResponse 200 (PBooks [sample_book]) ∧
  get_books_before (nbsp ++ "9007199254740992") [sample_book; d]
    = mkResponse 200 (PBooks [sample_book]).
Proof. vm_compute. split; reflexivity. Qed.

(** ** The availability backfill *)

Lemma lacks_available_true d :
  lacks_available d = true ↔ fields d !! "available" = None.
Proof.
  unfold lacks_available. case_bool_decide as H; simpl.
  - split; [done|]. intros Hnone. rewrite Hnone in H. by destruct H.
  - split; [|done]. intros _. by apply eq_None_not_Some.
Qed.

Lemma lacks_available_false d :
  lacks_available d = false ↔ fields d !! "available" ≠ None.
Proof.
  rewrite <-lacks_available_true. by destruct (lacks_available d).
Qed.

Lemma backfill_available t d : fields (backfill t d) !! "available" = Some (BBool true).
Proof.
  unfold backfill. rewrite apply_set_lookup, stamp_update_lookup.
  rewrite bool_decide_eq_false_2 by done. by rewrite lookup_singleton_eq.
Qed.

Lemma backfill_fields t d :
  fields (backfill t d) =
    <["available" := BBool true]> (<["updatedAt" := BDate t]> (fields d)).
Proof.
  apply map_eq. intros k. unfold backfill.
  rewrite apply_set_lookup, stamp_update_lookup.
  destruct (decide (k = "available")) as [->|Ha].
  { rewrite bool_decide_eq_false_2 by done.
    by rewrite lookup_singleton_eq, lookup_insert_eq. }
  rewrite (lookup_insert_ne _ "available") by done.
  destruct (decide (k = "updatedAt")) as [->|Hu].
  { rewrite bool_decide_eq_true_2 by done. by rewrite lookup_insert_eq. }
  rewrite bool_decide_eq_false_2 by done.
  by rewrite lookup_singleton_ne, lookup_insert_ne.
Qed.

(** The backfill handler, with its filter and its update cast. *)
Lemma post_books_fix_availability_unfold e db :
  post_books_fix_availability e db =
    (res_json (PUpdateResult
                 (mkUpdateResult true
                    (List.length (List.filter lacks_available db))
                    (count_modified lacks_available (backfill (now e)) db))),
     (λ d, if lacks_available d then backfill (now e) d else d) <$> db).
Proof. reflexivity. Qed.

Lemma count_modified_backfill t db :
  count_modified lacks_available (backfill t) db =
    List.length (List.filter lacks_available db).
Proof.
  unfold count_modified. f_equal. apply filter_ext. intros d.
  destruct (lacks_available d) eqn:Hd; [|done]. simpl.
  apply lacks_available_true in Hd.
  rewrite bool_decide_eq_false_2; [done|].
  intros Heq. pose proof (backfill_available t d) as Ha. rewrite Heq in Ha. congruence.
Qed.

Lemma backfilled_has_available t (db : list document) d :
  d ∈ (λ d, if lacks_available d then backfill t d else d) <$> db →
  lacks_available d = false.
Proof.
  rewrite list_elem_of_fmap. intros (d0 & -> & _).
  destruct (lacks_available d0) eqn:Hd0; [|done].
  apply lacks_available_false. by rewrite backfill_available.
Qed.

(** C3.  The backfill answers 200, matches and modifies exactly the records
    that lack an [available] field, and sets [available] to [true] on them
    (stamping [updatedAt]) while every other record stays as it was; a second
    run right after the first matches zero records, modifies none and leaves
    the collection unchanged. *)
Theorem post_books_fix_availability_idempotent e e' db :
  ∃ n db1,
    post_books_fix_availability e db =
      (mkResponse 200 (PUpdateResult (mkUpdateResult true n n)), db1) ∧
    n = List.length (List.filter (λ d, bool_decide (fields d !! "available" = None)) db) ∧
    List.length db1 = List.length db ∧
    (∀ i d, db !! i = Some d →
       ∃ d1, db1 !! i = Some d1 ∧ _id d1 = _id d ∧
         (fields d !! "available" = None →
            fields d1 = <["available" := BBool true]>
                          (<["updatedAt" := BDate (now e)]> (fields d))) ∧
         (fields d !! "available" ≠ None → d1 = d)) ∧
    post_books_fix_availability e' db1 =
      (mkResponse 200 (PUpdateResult (mkUpdateResult true 0 0)), db1).
Proof.
  rewrite post_books_fix_availability_unfold, count_modified_backfill.
  eexists _, _. split; [reflexivity|]. split; [|split; [|split]].
  - f_equal. apply filter_ext. intros d.
    destruct (lacks_available d) eqn:Hd.
    + apply lacks_available_true in Hd. by rewrite bool_decide_eq_true_2.
    + apply lacks_available_false in Hd. by rewrite bool_decide_eq_false_2.
  - apply length_fmap.
  - intros i d Hi. eexists. split.
    { rewrite list_lookup_fmap, Hi. reflexivity. }
    destruct (lacks_available d) eqn:Hd.
    + apply lacks_available_true in Hd. split; [done|]. split; [|congruence].
      intros _. apply backfill_fields.
    + apply lacks_available_false in Hd. done.
  - rewrite post_books_fix_availability_unfold, count_modified_backfill.
    rewrite filter_none by apply backfilled_has_available.
    rewrite fmap_unselected by apply backfilled_has_available.
    reflexivity.
Qed.

(** Instance of C3: of a current and a legacy record, the first run fills in
    the legacy one and the second run finds nothing to do. *)
Lemma post_books_fix_availability_idempotent_witness :
  ∃ db1 d1,
    post_books_fix_availability sample_env [sample_book; legacy_book] =
      (mkResponse 200 (PUpdateResult (mkUpdateResult true 1 1)), db1) ∧
    db1 !! 0%nat = Some sample_book ∧
    db1 !! 1%nat = Some d1 ∧
    fields d1 !! "available" = Some (BBool true) ∧
    post_books_fix_availability (mkEnv 1700000000001 102%N) db1 =
      (mkResponse 200 (PUpdateResult (mkUpdateResult true 0 0)), db1).
Proof.
  destruct (post_books_fix_availability_idempotent sample_env
              (mkEnv 1700000000001 102%N) [sample_book; legacy_book])
    as (n & db1 & Hfirst & Hn & _ & Heach & Hsecond).
  assert (n = 1%nat) as -> by (rewrite Hn; vm_compute; reflexivity).
  destruct (Heach 0%nat sample_book eq_refl) as (d0 & Hd0 & _ & _ & Hsame).
  destruct (Heach 1%nat legacy_book eq_refl) as (d1 & Hd1 & _ & Hfilled & _).
  exists db1, d1. split; [exact Hfirst|]. split; [|split; [exact Hd1|split]].
  - rewrite Hd0. f_equal. apply Hsame. vm_compute. discriminate.
  - rewrite Hfilled by (vm_compute; reflexivity). apply lookup_insert_eq.
  - exact Hsecond.
Defined.

(** ** The create handler *)

Lemma post_books_unfold e b db :
  post_books e b db =
    match Book_create e (create_arg b) db with
    | Ok (newBook, db') => (mkResponse 201 (PCreated "✅ New book added" newBook), db')
    | Throw _ => (mkResponse 500 (PError "Error adding book"), db)
    end.
Proof. reflexivity. Qed.

Lemma obj_get_create_arg b p :
  p ∈ bookSchema → obj_get (path_name p) (create_arg b) = b !! path_name p.
Proof. schema_cases; reflexivity. Qed.

Lemma check_required_None p : check_required p None = false.
Proof. unfold check_required. by destruct (path_type p). Qed.

(** A required path without default and without a value fails validation,
    wherever it stands in the schema. *)
Lemma construct_missing paths obj p :
  p ∈ paths → path_required p = true → path_default p = None →
  obj_get (path_name p) obj = None →
  ∃ err, construct paths obj = Throw err.
Proof.
  intros Hp Hreq Hdef Hget. induction paths as [|q rest IH]; [by apply elem_of_nil in Hp|].
  simpl. apply elem_of_cons in Hp as [<-|Hp].
  - unfold path_value. rewrite Hget, Hdef, bind_Ok, Hreq.
    rewrite check_required_None. simpl. eauto.
  - destruct (path_value q obj) as [v|]; [|rewrite bind_Throw; eauto].
    rewrite bind_Ok. destruct (path_required q && negb (check_required q v)); [eauto|].
    destruct (IH Hp) as [err ->]. rewrite bind_Throw. eauto.
Qed.

(** C6.  For every create request whose body lacks one of title, author,
    genre and publicationYear, validation rejects the document: the response
    is 500 with the handler's error message, and the collection is
    unchanged. *)
Theorem post_books_missing_required e b db k :
  k ∈ ["title"; "author"; "genre"; "publicationYear"] →
  b !! k = None →
  post_books e b db = (mkResponse 500 (PError "Error adding book"), db).
Proof.
  intros Hk Hmissing. rewrite post_books_unfold. unfold Book_create.
  assert (∃ p, p ∈ bookSchema ∧ path_name p = k ∧ path_required p = true ∧
               path_default p = None) as (p & Hp & <- & Hreq & Hdef).
  { revert Hk. rewrite !elem_of_cons, elem_of_nil.
    intros [->|[->|[->|[->|[]]]]];
      [ exists title_path | exists author_path | exists genre_path
      | exists publicationYear_path ];
      (split; [solve_elem|done]). }
  destruct (construct_missing bookSchema (create_arg b) p Hp Hreq Hdef) as [err ->].
  { by rewrite obj_get_create_arg. }
  by rewrite bind_Throw.
Qed.

(** Instance of C6: a body without genre. *)
Lemma post_books_missing_required_witness :
  post_books sample_env
    (<["title" := JStr "Dune"]> (<["author" := JStr "Frank Herbert"]>
       {[ "publicationYear" := JNum 1965 ]})) [sample_book]
  = (mkResponse 500 (PError "Error adding book"), [sample_book]).
Proof.
  apply (post_books_missing_required _ _ _ "genre").
  - solve_elem.
  - vm_compute. reflexivity.
Defined.

(** What a constructed document holds at each key. *)
Lemma construct_lookup paths obj fs k :
  NoDup (path_name <$> paths) →
  construct paths obj = Ok fs →
  fs !! k =
    match List.find (λ p, String.eqb (path_name p) k) paths with
    | Some p =>
        match path_value p obj with
        | Ok v => v
        | Throw _ => None
        end
    | None => None
    end.
Proof.
  revert fs. induction paths as [|p rest IH]; intros fs Hnodup; simpl.
  - intros [= <-]. apply lookup_empty.
  - rewrite fmap_cons in Hnodup. apply NoDup_cons in Hnodup as [Hfresh Hnodup].
    destruct (path_value p obj) as [v|] eqn:Hpv; [|thrown].
    rewrite bind_Ok.
    destruct (path_required p && negb (check_required p v)); [thrown|].
    destruct (construct rest obj) as [others|]; [|thrown]. rewrite bind_Ok.
    specialize (IH _ Hnodup eq_refl). intros [= <-].
    destruct (String.eqb_spec (path_name p) k) as [<-|Hne].
    + simpl. rewrite Hpv. destruct v as [x|]; [by rewrite lookup_insert_eq|].
      rewrite IH.
      destruct (List.find _ rest) as [q|] eqn:Hq; [|done].
      apply find_some in Hq as [Hin Hq]. apply String.eqb_eq in Hq.
      exfalso. apply Hfresh. rewrite <-Hq. apply list_elem_of_fmap.
      exists q. split; [done|]. by apply list_elem_of_In.
    + simpl. destruct v as [x|]; [by rewrite lookup_insert_ne|done].
Qed.

Lemma construct_accepts paths obj :
  (∀ p, p ∈ paths →
        ∃ v, path_value p obj = Ok v ∧
             (path_required p = true → check_required p v = true)) →
  ∃ fs, construct paths obj = Ok fs.
Proof.
  induction paths as [|p rest IH]; intros Hvalid; simpl; [eauto|].
  destruct (Hvalid p) as (v & -> & Hreq); [by left|]. rewrite bind_Ok.
  destruct IH as [others ->]. { intros q Hq. apply Hvalid. by right. }
  rewrite bind_Ok. destruct (path_required p); simpl; [|eauto].
  rewrite Hreq by done. simpl. eauto.
Qed.

(** A schema field of the document [Book.create] inserts. *)
Lemma created_field_lookup e obj db nb db' p :
  p ∈ bookSchema →
  Book_create e obj db = Ok (nb, db') →
  fields nb !! path_name p =
    match path_value p obj with
    | Ok v => v
    | Throw _ => None
    end.
Proof.
  intros Hp. unfold Book_create.
  destruct (construct bookSchema obj) as [fs|] eqn:Hfs; [|thrown].
  rewrite bind_Ok. case_bool_decide; [thrown|]. intros [= <- _]. simpl.
  assert (path_name p ≠ "__v" ∧ path_name p ≠ "createdAt" ∧ path_name p ≠ "updatedAt")
    as (Hv & Hc & Hu).
  { revert Hp. schema_cases; done. }
  unfold stamp_insert, timestamps. rewrite !lookup_insert_ne by done.
  rewrite (construct_lookup _ _ _ (path_name p) bookSchema_NoDup Hfs).
  fold (schema_lookup (path_name p)). by rewrite schema_lookup_elem.
Qed.

Lemma Book_create_inv e obj db nb db' :
  Book_create e obj db = Ok (nb, db') →
  _id nb = fresh_id e ∧ db' = (db ++ [nb])%list ∧ (fresh_id e ∉ _id <$> db) ∧
  fields nb !! "createdAt" = Some (BDate (now e)) ∧
  fields nb !! "updatedAt" = Some (BDate (now e)).
Proof.
  unfold Book_create.
  destruct (construct bookSchema obj) as [fs|] eqn:Hfs; [|thrown].
  rewrite bind_Ok. case_bool_decide as Hfresh; [thrown|]. intros [= <- <-].
  simpl. unfold stamp_insert, timestamps.
  split; [done|]. split; [done|]. split; [done|]. split.
  - rewrite lookup_insert_ne by done. by rewrite lookup_insert_eq.
  - rewrite !lookup_insert_ne by done. by rewrite lookup_insert_eq.
Qed.

Lemma Book_create_accepts e obj db :
  (∀ p, p ∈ bookSchema →
        ∃ v, path_value p obj = Ok v ∧
             (path_required p = true → check_required p v = true)) →
  fresh_id e ∉ _id <$> db →
  ∃ nb, Book_create e obj db = Ok (nb, (db ++ [nb])%list).
Proof.
  intros Hvalid Hfresh. unfold Book_create.
  destruct (construct_accepts bookSchema obj Hvalid) as [fs ->].
  rewrite bind_Ok, bool_decide_eq_false_2 by done. eauto.
Qed.

Lemma path_value_accepts b p stored :
  p ∈ bookSchema → accepts p (b !! path_name p) stored →
  path_value p (create_arg b) = Ok (Some stored) ∧
  (path_required p = true → check_required p (Some stored) = true).
Proof.
  intros Hp [Hv Hreq]. split; [|done].
  unfold path_value. rewrite obj_get_create_arg by done.
  destruct (b !! path_name p) as [j|]; by rewrite Hv.
Qed.

(** A create request whose five values the constructor takes is answered
    with 201 and the inserted document, which holds the values taken. *)
Lemma post_books_accepts e b db t a g y av :
  accepts title_path (b !! "title") (BStr t) →
  accepts author_path (b !! "author") (BStr a) →
  accepts genre_path (b !! "genre") (BStr g) →
  accepts publicationYear_path (b !! "publicationYear") (BNum y) →
  accepts available_path (b !! "available") av →
  fresh_id e ∉ _id <$> db →
  ∃ nb,
    post_books e b db =
      (mkResponse 201 (PCreated "✅ New book added" nb), (db ++ [nb])%list) ∧
    _id nb = fresh_id e ∧
    fields nb !! "title" = Some (BStr t) ∧
    fields nb !! "author" = Some (BStr a) ∧
    fields nb !! "genre" = Some (BStr g) ∧
    fields nb !! "publicationYear" = Some (BNum y) ∧
    fields nb !! "available" = Some av.
Proof.
  intros Ht Ha Hg Hy Hv Hfresh.
  apply (path_value_accepts b title_path) in Ht as [Ht Ht']; [|solve_elem].
  apply (path_value_accepts b author_path) in Ha as [Ha Ha']; [|solve_elem].
  apply (path_value_accepts b genre_path) in Hg as [Hg Hg']; [|solve_elem].
  apply (path_value_accepts b publicationYear_path) in Hy as [Hy Hy']; [|solve_elem].
  apply (path_value_accepts b available_path) in Hv as [Hv Hv']; [|solve_elem].
  destruct (Book_create_accepts e (create_arg b) db) as [nb Hcreate]; [|done|].
  { intros p. schema_cases; eauto. }
  exists nb. rewrite post_books_unfold, Hcreate. split; [done|].
  split; [by apply Book_create_inv in Hcreate as [? _]|].
  pose proof (created_field_lookup _ _ _ _ _ title_path ltac:(solve_elem) Hcreate) as Ft.
  pose proof (created_field_lookup _ _ _ _ _ author_path ltac:(solve_elem) Hcreate) as Fa.
  pose proof (created_field_lookup _ _ _ _ _ genre_path ltac:(solve_elem) Hcreate) as Fg.
  pose proof (created_field_lookup _ _ _ _ _ publicationYear_path ltac:(solve_elem) Hcreate)
    as Fy.
  pose proof (created_field_lookup _ _ _ _ _ available_path ltac:(solve_elem) Hcreate) as Fv.
  rewrite Ht in Ft. rewrite Ha in Fa. rewrite Hg in Fg. rewrite Hy in Fy. rewrite Hv in Fv.
  done.
Qed.

(** C7.  For every create request whose body omits [available]: whenever the
    request is answered with 201, the document inserted at the end of the
    collection has [available = true]; and the request is answered with 201
    whenever the four required fields are supplied with values the
    constructor takes and the generated identifier is unused. *)
Theorem post_books_default_available e b db :
  b !! "available" = None →
  (∀ resp db',
     post_books e b db = (resp, db') → status resp = 201%nat →
     ∃ nb, payload_of resp = PCreated "✅ New book added" nb ∧
           db' = (db ++ [nb])%list ∧
           fields nb !! "available" = Some (BBool true)) ∧
  (∀ t a g y,
     accepts title_path (b !! "title") (BStr t) →
     accepts author_path (b !! "author") (BStr a) →
     accepts genre_path (b !! "genre") (BStr g) →
     accepts publicationYear_path (b !! "publicationYear") (BNum y) →
     fresh_id e ∉ _id <$> db →
     ∃ nb, post_books e b db =
             (mkResponse 201 (PCreated "✅ New book added" nb), (db ++ [nb])%list) ∧
           fields nb !! "available" = Some (BBool true)).
Proof.
  intros Hnone. split.
  - intros resp db'. rewrite post_books_unfold.
    destruct (Book_create e (create_arg b) db) as [[nb db1]|] eqn:Hcreate.
    + intros [= <- <-] _. exists nb. split; [done|]. split.
      { by apply Book_create_inv in Hcreate as (_ & ? & _). }
      etrans; [exact (created_field_lookup _ _ _ _ _ available_path
                        ltac:(solve_elem) Hcreate)|].
      unfold path_value. rewrite obj_get_create_arg by solve_elem.
      simpl. by rewrite Hnone.
    + intros [= <- _]. simpl. discriminate.
  - intros t a g y Ht Ha Hg Hy Hfresh.
    destruct (post_books_accepts e b db t a g y (BBool true) Ht Ha Hg Hy)
      as (nb & Hpost & _ & _ & _ & _ & _ & Hav); [|done|eauto].
    split; [by rewrite Hnone|done].
Qed.

(** Instance of C7: a body with the four required fields and no
    [available]. *)
Lemma post_books_default_available_witness :
  let b : gmap string json :=
    <["title" := JStr " Dune "]> (<["author" := JStr "Frank Herbert"]>
      (<["genre" := JStr "Science Fiction"]> {[ "publicationYear" := JNum 1965 ]})) in
  ∃ nb,
    post_books sample_env b [sample_book] =
      (mkResponse 201 (PCreated "✅ New book added" nb), [sample_book; nb]) ∧
    fields nb !! "available" = Some (BBool true).
Proof.
  intros b.
  destruct (post_books_default_available sample_env b [sample_book]
              ltac:(vm_compute; reflexivity)) as [_ Hcreated].
  apply (Hcreated "Dune" "Frank Herbert" "Science Fiction" 1965).
  - split; [vm_compute; reflexivity|]. intros _. vm_compute. reflexivity.
  - split; [vm_compute; reflexivity|]. intros _. vm_compute. reflexivity.
  - split; [vm_compute; reflexivity|]. intros _. vm_compute. reflexivity.
  - split; [vm_compute; reflexivity|]. intros _. vm_compute. reflexivity.
  - simpl. rewrite list_elem_of_singleton. discriminate.
Defined.

(** C9, as amended.  Creating a Book whose required fields are supplied with
    values the constructor takes, under an unused generated identifier and
    when no record already stored has the same title, and then fetching by a
    path title that trims to the stored title, answers 200 with the record
    just created: it carries the generated identifier and the title, author,
    genre, publicationYear and available stored at creation. *)
Theorem post_books_then_get_books_title e b db t a g y av title :
  accepts title_path (b !! "title") (BStr t) →
  accepts author_path (b !! "author") (BStr a) →
  accepts genre_path (b !! "genre") (BStr g) →
  accepts publicationYear_path (b !! "publicationYear") (BNum y) →
  accepts available_path (b !! "available") av →
  fresh_id e ∉ _id <$> db →
  (∀ d, d ∈ db → fields d !! "title" ≠ Some (BStr t)) →
  trim title = t →
  ∃ nb db',
    post_books e b db = (mkResponse 201 (PCreated "✅ New book added" nb), db') ∧
    get_books_title title db' = mkResponse 200 (PBook nb) ∧
    _id nb = fresh_id e ∧
    fields nb !! "title" = Some (BStr t) ∧
    fields nb !! "author" = Some (BStr a) ∧
    fields nb !! "genre" = Some (BStr g) ∧
    fields nb !! "publicationYear" = Some (BNum y) ∧
    fields nb !! "available" = Some av.
Proof.
  intros Ht Ha Hg Hy Hv Hfresh Hnew Htitle.
  destruct (post_books_accepts e b db t a g y av Ht Ha Hg Hy Hv Hfresh)
    as (nb & Hpost & Hid & Hft & Hrest).
  exists nb, (db ++ [nb])%list. split; [exact Hpost|]. split; [|by split].
  unfold get_books_title, Book_findOne. rewrite cast_query_title, bind_Ok, Htitle.
  assert (List.find (λ d, bool_decide (fields d !! "title" = Some (BStr t)))
            (db ++ [nb]) = Some nb) as ->; [|done].
  clear Hpost Hfresh. induction db as [|d db IH]; simpl.
  - by rewrite bool_decide_eq_true_2.
  - rewrite bool_decide_eq_false_2 by (apply Hnew; by left).
    apply IH. intros x Hx. apply Hnew. by right.
Qed.

(** Instance of C9: a new title is created and fetched back. *)
Lemma post_books_then_get_books_title_witness :
  let b : gmap string json :=
    <["title" := JStr " Dune "]> (<["author" := JStr "Frank Herbert"]>
      (<["genre" := JStr "Science Fiction"]>
         (<["publicationYear" := JNum 1965]> {[ "available" := JBool false ]}))) in
  ∃ nb db',
    post_books sample_env b [sample_book] =
      (mkResponse 201 (PCreated "✅ New book added" nb), db') ∧
    get_books_title "Dune" db' = mkResponse 200 (PBook nb) ∧
    _id nb = fresh_id sample_env ∧
    fields nb !! "title" = Some (BStr "Dune") ∧
    fields nb !! "author" = Some (BStr "Frank Herbert") ∧
    fields nb !! "genre" = Some (BStr "Science Fiction") ∧
    fields nb !! "publicationYear" = Some (BNum 1965) ∧
    fields nb !! "available" = Some (BBool false).
Proof.
  intros b.
  apply (post_books_then_get_books_title sample_env b [sample_book]
           "Dune" "Frank Herbert" "Science Fiction" 1965 (BBool false) "Dune").
  - split; [vm_compute; reflexivity|]. intros _. vm_compute. reflexivity.
  - split; [vm_compute; reflexivity|]. intros _. vm_compute. reflexivity.
  - split; [vm_compute; reflexivity|]. intros _. vm_compute. reflexivity.
  - split; [vm_compute; reflexivity|]. intros _. vm_compute. reflexivity.
  - split; [vm_compute; reflexivity|]. intros. vm_compute. reflexivity.
  - simpl. rewrite list_elem_of_singleton. discriminate.
  - intros d Hd. apply list_elem_of_singleton in Hd as ->. vm_compute. discriminate.
  - vm_compute. reflexivity.
Defined.

(** Against C9 as stated: a Book titled ["1984"] is created with all
    required fields while an older record has the same title; fetching by
    that title answers with the older record, whose author is not the one
    stored at creation. *)
Lemma post_books_then_get_books_title_finds_older :
  let b : gmap string json :=
    <["title" := JStr "1984"]> (<["author" := JStr "Eric Blair"]>
      (<["genre" := JStr "Novel"]> {[ "publicationYear" := JNum 1950 ]})) in
  ∃ nb,
    post_books sample_env b [sample_book] =
      (mkResponse 201 (PCreated "✅ New book added" nb), [sample_book; nb]) ∧
    fields nb !! "title" = Some (BStr "1984") ∧
    fields nb !! "author" = Some (BStr "Eric Blair") ∧
    get_books_title "1984" [sample_book; nb] = mkResponse 200 (PBook sample_book) ∧
    fields sample_book !! "author" = Some (BStr "George Orwell") ∧
    _id sample_book ≠ _id nb.
Proof. eexists. vm_compute. repeat split. discriminate. Qed.

(** ** The handlers on padded text and on numeric text *)

(** White space outside ASCII is trimmed like a blank: a title or genre
    segment behind a no-break space finds the record, a title of one
    no-break space is no title, and a title sent with a byte order mark is
    stored without it and hidden behind an older record of that title. *)
Example padded_text_examples :
  let dune := mkDocument 9%N {[ "title" := BStr "Dune" ]} in
  let b : gmap string json :=
    <["title" := JStr (bom ++ "Dune")]> (<["author" := JStr "Frank Herbert"]>
      (<["genre" := JStr "Science Fiction"]> {[ "publicationYear" := JNum 1965 ]})) in
  get_books_title (nbsp ++ "1984") [sample_book] = mkResponse 200 (PBook sample_book) ∧
  get_books_genre (nbsp ++ "Fiction") [sample_book] = mkResponse 200 (PBooks [sample_book]) ∧
  post_books sample_env (<["title" := JStr nbsp]> b) [] =
    (mkResponse 500 (PError "Error adding book"), []) ∧
  ∃ nb,
    post_books sample_env b [dune] =
      (mkResponse 201 (PCreated "✅ New book added" nb), [dune; nb]) ∧
    fields nb !! "title" = Some (BStr "Dune") ∧
    get_books_title (bom ++ "Dune") [dune; nb] = mkResponse 200 (PBook dune).
Proof. vm_compute. repeat split. eexists. repeat split. Qed.

(** A publication year may come as numeric text, with a fraction or an
    exponent; a title may come as a number, stored as its text. *)
Example numeric_text_examples :
  let b (t y : json) : gmap string json :=
    <["title" := t]> (<["author" := JStr "Frank Herbert"]>
      (<["genre" := JStr "Science Fiction"]> {[ "publicationYear" := y ]})) in
  (∃ nb, post_books sample_env (b (JStr "Dune") (JStr "1e3")) [] =
           (mkResponse 201 (PCreated "✅ New book added" nb), [nb]) ∧
         fields nb !! "publicationYear" = Some (BNum 1000)) ∧
  (∃ nb, post_books sample_env (b (JStr "Dune") (JStr "1965.5")) [] =
           (mkResponse 201 (PCreated "✅ New book added" nb), [nb]) ∧
         fields nb !! "publicationYear" = Some (BNum (StringToNumber "1965.5"))) ∧
  (∃ nb, post_books sample_env (b (JNum (10 ^ 21)) (JNum 1965)) [] =
           (mkResponse 201 (PCreated "✅ New book added" nb), [nb]) ∧
         fields nb !! "title" = Some (BStr "1e+21")) ∧
  post_books sample_env (b (JStr "Dune") (JStr "1965 AD")) [] =
    (mkResponse 500 (PError "Error adding book"), []).
Proof. vm_compute. repeat split; eexists; repeat split. Qed.

(** * Further properties of the handlers *)

(** ** Listing and filtering by genre *)

Lemma filter_all {A} (l : list A) : List.filter (λ _, true) l = l.
Proof. induction l as [|a l IH]; simpl; [done|]. by rewrite IH. Qed.

Lemma cast_query_genre genre :
  cast_query (QEq "genre" genre) =
    Ok (λ d, bool_decide (fields d !! "genre" = Some (BStr (trim genre)))).
Proof. reflexivity. Qed.

Lemma get_books_genre_unfold genre db :
  get_books_genre genre db =
    mkResponse 200
      (PBooks (List.filter
                 (λ d, bool_decide (fields d !! "genre" = Some (BStr (trim genre)))) db)).
Proof. unfold get_books_genre, Book_find. by rewrite cast_query_genre, bind_Ok. Qed.

Lemma elem_of_filter_bool {A} (m : A → bool) (l : list A) x :
  x ∈ List.filter m l ↔ x ∈ l ∧ m x = true.
Proof. by rewrite !list_elem_of_In, filter_In. Qed.

(** X2.  The genre query answers 200 with exactly the records whose genre
    equals the path genre with its surrounding white space trimmed, in
    collection order; when no record has that genre the answer is still 200,
    with an empty list. *)
Theorem get_books_genre_exact genre db :
  ∃ books,
    get_books_genre genre db = mkResponse 200 (PBooks books) ∧
    sublist books db ∧
    (∀ d, d ∈ books ↔ d ∈ db ∧ fields d !! "genre" = Some (BStr (trim genre))) ∧
    ((∀ d, d ∈ db → fields d !! "genre" ≠ Some (BStr (trim genre))) → books = []).
Proof.
  rewrite get_books_genre_unfold. eexists. split; [done|].
  split; [apply filter_sublist|]. split.
  - intros d. rewrite elem_of_filter_bool. by rewrite bool_decide_eq_true.
  - intros Hnone. apply filter_none. intros d Hd.
    apply bool_decide_eq_false. by apply Hnone.
Qed.

(** Instance of X2: a genre segment padded with a no-break space finds the
    record of that genre and not the other. *)
Lemma get_books_genre_exact_witness :
  ∃ books,
    get_books_genre (nbsp ++ "Fiction") [sample_book; legacy_book]
      = mkResponse 200 (PBooks books) ∧
    sample_book ∈ books ∧ legacy_book ∉ books.
Proof.
  destruct (get_books_genre_exact (nbsp ++ "Fiction") [sample_book; legacy_book])
    as (books & Hresp & _ & Hmem & _).
  exists books. split; [exact Hresp|]. split.
  - apply Hmem. split; [by left|]. vm_compute. reflexivity.
  - intros Hin. apply Hmem in Hin as [_ Hg]. vm_compute in Hg. discriminate Hg.
Defined.

(** X1.  Listing answers 200 with every record of the collection, in
    collection order; right after a create answered with 201 it returns the
    former records followed by the record just created. *)
Theorem get_books_lists_everything e b db :
  get_books db = mkResponse 200 (PBooks db) ∧
  (∀ msg nb db',
     post_books e b db = (mkResponse 201 (PCreated msg nb), db') →
     get_books db' = mkResponse 200 (PBooks (db ++ [nb]))).
Proof.
  assert (Hall : ∀ l, get_books l = mkResponse 200 (PBooks l)).
  { intros l. unfold get_books, Book_find, cast_query. rewrite bind_Ok. by rewrite filter_all. }
  split; [apply Hall|].
  intros msg nb db'. rewrite post_books_unfold.
  destruct (Book_create e (create_arg b) db) as [[nb1 db1]|] eqn:Hcreate;
    [|intros H; discriminate H].
  intros [= _ <- <-]. apply Book_create_inv in Hcreate as (_ & -> & _).
  apply Hall.
Qed.

(** Instance of X1: a create followed by a listing. *)
Lemma get_books_lists_everything_witness :
  let b : gmap string json :=
    <["title" := JStr "Dune"]> (<["author" := JStr "Frank Herbert"]>
      (<["genre" := JStr "Science Fiction"]> {[ "publicationYear" := JNum 1965 ]})) in
  ∃ nb db',
    post_books sample_env b [sample_book] =
      (mkResponse 201 (PCreated "✅ New book added" nb), db') ∧
    get_books db' = mkResponse 200 (PBooks [sample_book; nb]).
Proof.
  intros b.
  assert (Hpost : ∃ nb db', post_books sample_env b [sample_book] =
            (mkResponse 201 (PCreated "✅ New book added" nb), db')).
  { eexists _, _. vm_compute. reflexivity. }
  destruct Hpost as (nb & db' & Hpost). exists nb, db'. split; [exact Hpost|].
  destruct (get_books_lists_everything sample_env b [sample_book]) as [_ Hafter].
  exact (Hafter _ _ _ Hpost).
Defined.

(** ** Deleting a stored record *)

Lemma delete_first_split (m : document → bool) l1 d l2 :
  (∀ x, x ∈ l1 → m x = false) → m d = true →
  List.find m (l1 ++ d :: l2) = Some d ∧ delete_first m (l1 ++ d :: l2) = (l1 ++ l2)%list.
Proof.
  intros Hl1 Hd. induction l1 as [|a l1 IH]; simpl.
  - by rewrite Hd.
  - rewrite (Hl1 a) by by left.
    destruct IH as [-> ->]; [|done]. intros x Hx. apply Hl1. by right.
Qed.

Lemma has_id_true oid d : has_id oid d = true ↔ _id d = oid.
Proof. unfold has_id. apply N.eqb_eq. Qed.

(** X3.  Deleting by a well-formed identifier that a stored record carries
    answers 200 with deletedCount 1 and removes the first record with that
    identifier, keeping every other record in its place. *)
Theorem delete_books_id_present id db oid l1 d l2 :
  castObjectId id = Some oid →
  db = (l1 ++ d :: l2)%list → _id d = oid → (∀ x, x ∈ l1 → _id x ≠ oid) →
  delete_books_id id db =
    (mkResponse 200 (PDeleteResult (mkDeleteResult true 1)), (l1 ++ l2)%list).
Proof.
  intros Hid -> Hd Hl1. unfold delete_books_id, Book_deleteOne.
  rewrite (cast_query_QId _ _ Hid), bind_Ok.
  destruct (delete_first_split (has_id oid) l1 d l2) as [-> ->]; [| |done].
  - intros x Hx. apply has_id_false. by apply Hl1.
  - by apply has_id_true.
Qed.

(** Instance of X3: the second of two records is deleted. *)
Lemma delete_books_id_present_witness :
  delete_books_id sample_id [legacy_book; sample_book] =
    (mkResponse 200 (PDeleteResult (mkDeleteResult true 1)), [legacy_book]).
Proof.
  apply (delete_books_id_present sample_id _ sample_oid [legacy_book] sample_book []).
  - vm_compute. reflexivity.
  - reflexivity.
  - reflexivity.
  - intros x Hx. apply list_elem_of_singleton in Hx as ->. vm_compute. discriminate.
Defined.

(** X4.  When the identifiers of the collection are pairwise distinct, after
    a delete by a well-formed identifier no record carries that identifier,
    and deleting by it again answers 200 with deletedCount 0 and changes
    nothing. *)
Theorem delete_books_id_twice id db oid :
  castObjectId id = Some oid →
  NoDup (_id <$> db) →
  (∀ x, x ∈ (delete_books_id id db).2 → _id x ≠ oid) ∧
  delete_books_id id (delete_books_id id db).2 =
    (mkResponse 200 (PDeleteResult (mkDeleteResult true 0)), (delete_books_id id db).2).
Proof.
  intros Hid Hnodup.
  assert (Hgone : ∀ x, x ∈ (delete_books_id id db).2 → _id x ≠ oid).
  { unfold delete_books_id, Book_deleteOne.
    rewrite (cast_query_QId _ _ Hid), bind_Ok.
    destruct (find_first (has_id oid) db)
      as [[Hnone Hall]|(l1 & d & l2 & -> & Hl1 & Hd & Hfind)].
    - rewrite Hnone. simpl. intros x Hx Heq.
      specialize (Hall x Hx). apply has_id_true in Heq. congruence.
    - destruct (delete_first_split (has_id oid) l1 d l2 Hl1 Hd) as [-> ->]. simpl.
      apply has_id_true in Hd.
      rewrite fmap_app, fmap_cons in Hnodup.
      apply NoDup_app in Hnodup as (_ & Hdisj & Hright).
      apply NoDup_cons in Hright as [Hnotin _].
      intros x Hx Heq. apply elem_of_app in Hx as [Hx|Hx].
      + specialize (Hl1 x Hx). apply has_id_true in Heq. congruence.
      + apply Hnotin. rewrite Hd, <-Heq. apply list_elem_of_fmap. eauto. }
  split; [exact Hgone|].
  set (db1 := (delete_books_id id db).2) in *.
  unfold delete_books_id at 1, Book_deleteOne.
  rewrite (cast_query_QId _ _ Hid), bind_Ok.
  rewrite find_None_forall; [done|].
  intros x Hx. apply has_id_false. by apply Hgone.
Qed.

(** Instance of X4: deleting the same record twice. *)
Lemma delete_books_id_twice_witness :
  (∀ x, x ∈ (delete_books_id sample_id [legacy_book; sample_book]).2 → _id x ≠ sample_oid) ∧
  delete_books_id sample_id (delete_books_id sample_id [legacy_book; sample_book]).2 =
    (mkResponse 200 (PDeleteResult (mkDeleteResult true 0)),
     (delete_books_id sample_id [legacy_book; sample_book]).2).
Proof.
  apply (delete_books_id_twice sample_id [legacy_book; sample_book] sample_oid).
  - vm_compute. reflexivity.
  - simpl. repeat (apply NoDup_cons; split; [rewrite ?elem_of_cons, ?elem_of_nil;
      intuition discriminate|]). apply NoDup_nil_2.
Defined.

(** ** Updating: identifiers that match nothing or do not cast *)

(** X6.  Updating by a well-formed identifier that no stored record carries,
    with values that cast to their schema types, is not an error: the answer
    is 200 with matchedCount 0 and modifiedCount 0, and the collection is
    unchanged. *)
Theorem put_books_id_absent e id b db oid :
  castObjectId id = Some oid →
  (∀ d, d ∈ db → _id d ≠ oid) →
  (∀ p v, p ∈ bookSchema → update_set b !! path_name p = Some v →
          is_Some (cast_path p v)) →
  put_books_id e id b db =
    (mkResponse 200 (PUpdateResult (mkUpdateResult true 0 0)), db).
Proof.
  intros Hid Habsent Hcasts. unfold put_books_id, Book_updateOne.
  rewrite (cast_query_QId _ _ Hid), bind_Ok.
  destruct (cast_set_accepts bookSchema (update_set b) Hcasts) as [changes ->].
  rewrite bind_Ok. rewrite find_None_forall; [done|].
  intros d Hd. apply has_id_false. by apply Habsent.
Qed.

(** Instance of X6: an identifier of the right shape that no record carries. *)
Lemma put_books_id_absent_witness :
  put_books_id sample_env "507f191e810c19729de860ea"
    {[ "genre" := JStr "Satire" ]} [sample_book] =
    (mkResponse 200 (PUpdateResult (mkUpdateResult true 0 0)), [sample_book]).
Proof.
  apply (put_books_id_absent _ _ _ _ 24912452986661892666266509546%N).
  - vm_compute. reflexivity.
  - intros d Hd. apply list_elem_of_singleton in Hd as ->. vm_compute. discriminate.
  - eapply cast_set_Ok_casts. vm_compute. reflexivity.
Defined.

(** X5.  An identifier that is not a well-formed ObjectId makes both the
    update and the delete answer 500 with their error message, whatever the
    body, and the collection is unchanged. *)
Theorem malformed_id_is_rejected e id b db :
  castObjectId id = None →
  put_books_id e id b db = (mkResponse 500 (PError "Error updating book"), db) ∧
  delete_books_id id db = (mkResponse 500 (PError "Error deleting book"), db).
Proof.
  intros Hid. unfold put_books_id, Book_updateOne, delete_books_id, Book_deleteOne.
  unfold cast_query. by rewrite Hid.
Qed.

(** Instance of X5: an identifier that is not hexadecimal. *)
Lemma malformed_id_is_rejected_witness :
  put_books_id sample_env "not-an-id" {[ "genre" := JStr "Satire" ]} [sample_book] =
    (mkResponse 500 (PError "Error updating book"), [sample_book]) ∧
  delete_books_id "not-an-id" [sample_book] =
    (mkResponse 500 (PError "Error deleting book"), [sample_book]).
Proof. apply malformed_id_is_rejected. vm_compute. reflexivity. Defined.

(** ** Updating: the other records *)

Lemma update_first_ids (m : document → bool) f db :
  (∀ d, _id (f d) = _id d) → _id <$> update_first m f db = _id <$> db.
Proof.
  intros Hf. induction db as [|d db IH]; [done|].
  cbn [update_first]. destruct (m d); rewrite !fmap_cons; [by rewrite Hf|by rewrite IH].
Qed.

Lemma update_first_lookup_other (m : document → bool) f db i x :
  db !! i = Some x → m x = false → update_first m f db !! i = Some x.
Proof.
  revert i. induction db as [|d db IH]; intros i Hi Hx; [done|].
  simpl. destruct i as [|i]; simpl in *.
  - injection Hi as ->. by rewrite Hx.
  - destruct (m d); simpl; [done|]. by apply IH.
Qed.

(** The collection after an update, whatever the response. *)
Lemma put_books_id_collection e id b db :
  (put_books_id e id b db).2 = db ∨
  ∃ oid changes,
    castObjectId id = Some oid ∧
    (put_books_id e id b db).2 =
      update_first (has_id oid) (apply_set (stamp_update (now e) changes)) db.
Proof.
  unfold put_books_id, Book_updateOne.
  destruct (castObjectId id) as [oid|] eqn:Hid.
  - rewrite (cast_query_QId _ _ Hid), bind_Ok.
    destruct (cast_set bookSchema (update_set b)) as [changes|]; [|by left].
    rewrite bind_Ok. destruct (List.find (has_id oid) db); [|by left].
    right. by exists oid, changes.
  - left. unfold cast_query. by rewrite Hid.
Qed.

(** X7.  Whatever the response, an update keeps the number of records and
    their identifiers, in order, and every record whose identifier differs
    from the requested one is left exactly as it was. *)
Theorem put_books_id_other_records e id b db :
  List.length (put_books_id e id b db).2 = List.length db ∧
  _id <$> (put_books_id e id b db).2 = _id <$> db ∧
  (∀ oid i x,
     castObjectId id = Some oid → db !! i = Some x → _id x ≠ oid →
     (put_books_id e id b db).2 !! i = Some x).
Proof.
  destruct (put_books_id_collection e id b db) as [->|(oid & changes & Hid & ->)].
  { done. }
  assert (Hids : _id <$> update_first (has_id oid)
                   (apply_set (stamp_update (now e) changes)) db = _id <$> db).
  { by apply update_first_ids. }
  split; [|split; [exact Hids|]].
  - rewrite <-(length_fmap _id), Hids. apply length_fmap.
  - intros oid' i x Hid' Hi Hx. rewrite Hid in Hid'. injection Hid' as <-.
    apply update_first_lookup_other; [done|]. by apply has_id_false.
Qed.

(** Instance of X7: the record before the updated one is untouched. *)
Lemma put_books_id_other_records_witness :
  (put_books_id sample_env sample_id {[ "genre" := JStr "Satire" ]}
     [legacy_book; sample_book]).2 !! 0%nat = Some legacy_book.
Proof.
  destruct (put_books_id_other_records sample_env sample_id
              {[ "genre" := JStr "Satire" ]} [legacy_book; sample_book])
    as (_ & _ & Hothers).
  apply (Hothers sample_oid); [vm_compute; reflexivity|reflexivity|].
  vm_compute. discriminate.
Defined.

(** X8.  An accepted update of a stored record reports matchedCount 1,
    reports modifiedCount 0 exactly when the record did not change, keeps the
    record's identifier and [createdAt], and sets its [updatedAt] to the time
    of the request. *)
Theorem put_books_id_stamps e id b db oid d :
  castObjectId id = Some oid →
  List.find (has_id oid) db = Some d →
  (∀ p v, p ∈ bookSchema → update_set b !! path_name p = Some v →
          is_Some (cast_path p v)) →
  ∃ result db' d',
    put_books_id e id b db = (mkResponse 200 (PUpdateResult result), db') ∧
    matchedCount result = 1%nat ∧
    (modifiedCount result = 0%nat ↔ d' = d) ∧
    List.find (has_id oid) db' = Some d' ∧
    _id d' = _id d ∧
    fields d' !! "updatedAt" = Some (BDate (now e)) ∧
    fields d' !! "createdAt" = fields d !! "createdAt".
Proof.
  intros Hid Hfind Hcasts.
  destruct (cast_set_accepts bookSchema (update_set b) Hcasts) as [changes Hcast].
  destruct (put_books_id_matched e id b db oid d changes Hid Hfind Hcast)
    as [Hput Hfind'].
  eexists _, _, _. split; [exact Hput|]. split; [done|]. split.
  { simpl. case_bool_decide; split; intros H0; try done; discriminate H0. }
  split; [exact Hfind'|]. split; [done|]. split.
  - rewrite apply_set_lookup, stamp_update_lookup. by rewrite bool_decide_eq_true_2.
  - rewrite apply_set_lookup, stamp_update_lookup.
    rewrite bool_decide_eq_false_2 by done.
    rewrite (cast_set_lookup _ _ _ "createdAt" Hcast).
    fold (schema_lookup "createdAt"). rewrite schema_lookup_outside; [done|solve_elem].
Qed.

(** Instance of X8: a genre update of the sample record. *)
Lemma put_books_id_stamps_witness :
  ∃ result db' d',
    put_books_id sample_env sample_id {[ "genre" := JStr "Satire" ]} [sample_book] =
      (mkResponse 200 (PUpdateResult result), db') ∧
    matchedCount result = 1%nat ∧
    (modifiedCount result = 0%nat ↔ d' = sample_book) ∧
    List.find (has_id sample_oid) db' = Some d' ∧
    _id d' = _id sample_book ∧
    fields d' !! "updatedAt" = Some (BDate (now sample_env)) ∧
    fields d' !! "createdAt" = fields sample_book !! "createdAt".
Proof.
  apply (put_books_id_stamps sample_env sample_id _ [sample_book] sample_oid sample_book).
  - vm_compute. reflexivity.
  - vm_compute. reflexivity.
  - eapply cast_set_Ok_casts. vm_compute. reflexivity.
Defined.

(** ** Creating: which requests are accepted *)

Lemma construct_valid paths obj fs p :
  construct paths obj = Ok fs → p ∈ paths →
  ∃ v, path_value p obj = Ok v ∧
       (path_required p = true → check_required p v = true).
Proof.
  revert fs. induction paths as [|q rest IH]; intros fs Hfs Hp;
    [by apply elem_of_nil in Hp|].
  simpl in Hfs.
  destruct (path_value q obj) as [v|] eqn:Hpv; [|by revert Hfs; thrown].
  rewrite bind_Ok in Hfs.
  destruct (path_required q && negb (check_required q v)) eqn:Hreq;
    [by revert Hfs; thrown|].
  destruct (construct rest obj) as [others|] eqn:Hrest; [|by revert Hfs; thrown].
  apply elem_of_cons in Hp as [->|Hp]; [|by eapply IH].
  exists v. split; [done|]. intros Hr. rewrite Hr in Hreq. simpl in Hreq.
  by apply negb_false_iff in Hreq.
Qed.

Lemma post_books_outcome e b db :
  (post_books e b db = (mkResponse 500 (PError "Error adding book"), db) ∧
   ∀ nb db', Book_create e (create_arg b) db ≠ Ok (nb, db')) ∨
  (∃ nb, post_books e b db =
           (mkResponse 201 (PCreated "✅ New book added" nb), (db ++ [nb])%list) ∧
         Book_create e (create_arg b) db = Ok (nb, (db ++ [nb])%list)).
Proof.
  rewrite post_books_unfold.
  destruct (Book_create e (create_arg b) db) as [[nb db']|] eqn:Hcreate.
  - right. exists nb. pose proof Hcreate as Hinv.
    apply Book_create_inv in Hinv as (_ & -> & _). done.
  - left. split; [done|]. intros nb db' H. discriminate H.
Qed.

Lemma accepts_of_path_value b p v :
  p ∈ bookSchema →
  path_value p (create_arg b) = Ok v →
  (path_required p = true → check_required p v = true) →
  ∃ stored, accepts p (b !! path_name p) stored.
Proof.
  intros Hp. unfold path_value, accepts. rewrite obj_get_create_arg by done.
  destruct (b !! path_name p) as [j|].
  - destruct (cast_path p j) as [x|]; [|intros H; discriminate H].
    intros [= <-] Hreq. eauto.
  - intros [= <-] Hreq. revert Hp Hreq.
    schema_cases; simpl; intros Hreq; try (by discriminate Hreq). eauto.
Qed.

Lemma accepts_title_shape p v stored :
  path_type p = SString → path_required p = true → accepts p v stored →
  ∃ s, stored = BStr s ∧ s ≠ "".
Proof.
  intros Hty Hr [_ Hreq]. specialize (Hreq Hr). unfold check_required in Hreq.
  rewrite Hty in Hreq. destruct stored as [| | |s|]; try discriminate Hreq.
  exists s. split; [done|]. intros ->. discriminate Hreq.
Qed.

Lemma accepts_year_shape v stored :
  accepts publicationYear_path v stored → ∃ y, stored = BNum y.
Proof.
  intros [_ Hreq]. specialize (Hreq eq_refl). unfold check_required in Hreq. simpl in Hreq.
  destruct stored; try discriminate Hreq. eauto.
Qed.

(** X11.  A create request is answered either with 201 and the collection
    extended by one record, or with 500 and the collection unchanged; it is
    answered with 201 exactly when every path of the schema accepts the
    value the body gives it (the value casts, a required path holds a valid
    value, an undefined value has a default) and the generated identifier is
    unused. *)
Theorem post_books_accepted_iff e b db :
  ((∃ nb, post_books e b db =
            (mkResponse 201 (PCreated "✅ New book added" nb), (db ++ [nb])%list)) ↔
   (∀ p, p ∈ bookSchema → ∃ stored, accepts p (b !! path_name p) stored) ∧
   fresh_id e ∉ _id <$> db) ∧
  ((∃ nb, post_books e b db =
            (mkResponse 201 (PCreated "✅ New book added" nb), (db ++ [nb])%list)) ∨
   post_books e b db = (mkResponse 500 (PError "Error adding book"), db)).
Proof.
  split.
  - split.
    + intros [nb Hpost].
      destruct (post_books_outcome e b db) as [[H500 _]|(nb' & _ & Hcreate)].
      { rewrite H500 in Hpost. discriminate Hpost. }
      split; [|by apply Book_create_inv in Hcreate as (_ & _ & ? & _)].
      intros p Hp. unfold Book_create in Hcreate.
      destruct (construct bookSchema (create_arg b)) as [fs|] eqn:Hfs;
        [|by revert Hcreate; thrown].
      destruct (construct_valid _ _ _ p Hfs Hp) as (v & Hv & Hreq).
      by eapply accepts_of_path_value.
    + intros [Hall Hfresh].
      destruct (Hall title_path ltac:(solve_elem)) as [st Ht].
      destruct (Hall author_path ltac:(solve_elem)) as [sa Ha].
      destruct (Hall genre_path ltac:(solve_elem)) as [sg Hg].
      destruct (Hall publicationYear_path ltac:(solve_elem)) as [sy Hy].
      destruct (Hall available_path ltac:(solve_elem)) as [av Hv].
      destruct (accepts_title_shape title_path _ _ eq_refl eq_refl Ht) as (t & -> & _).
      destruct (accepts_title_shape author_path _ _ eq_refl eq_refl Ha) as (a & -> & _).
      destruct (accepts_title_shape genre_path _ _ eq_refl eq_refl Hg) as (g & -> & _).
      destruct (accepts_year_shape _ _ Hy) as (y & ->).
      destruct (post_books_accepts e b db t a g y av Ht Ha Hg Hy Hv Hfresh)
        as (nb & Hpost & _). eauto.
  - destruct (post_books_outcome e b db) as [[H500 _]|(nb & Hpost & _)]; eauto.
Qed.

(** Instance of X11: a body whose year is the numeric string ["1965"] is accepted. *)
Lemma post_books_accepted_iff_witness :
  let b : gmap string json :=
    <["title" := JStr "Dune"]> (<["author" := JStr "Frank Herbert"]>
      (<["genre" := JStr "Science Fiction"]> {[ "publicationYear" := JStr "1965" ]})) in
  ∃ nb, post_books sample_env b [sample_book] =
          (mkResponse 201 (PCreated "✅ New book added" nb), [sample_book; nb]).
Proof.
  intros b.
  destruct (post_books_accepted_iff sample_env b [sample_book]) as [[_ Haccept] _].
  apply Haccept. split.
  - intros p. schema_cases.
    + exists (BStr "Dune"). split; [vm_compute; reflexivity|]. intros _. vm_compute. reflexivity.
    + exists (BStr "Frank Herbert"). split; [vm_compute; reflexivity|].
      intros _. vm_compute. reflexivity.
    + exists (BStr "Science Fiction"). split; [vm_compute; reflexivity|].
      intros _. vm_compute. reflexivity.
    + exists (BNum 1965). split; [vm_compute; reflexivity|]. intros _. vm_compute. reflexivity.
    + exists (BBool true). split; [vm_compute; reflexivity|]. intros H. discriminate H.
  - simpl. rewrite list_elem_of_singleton. discriminate.
Defined.

(** ** Creating: the inserted document *)

(** A schema field of an inserted document is the value its path accepted. *)
Lemma created_field_accepts e b db nb db' p :
  Book_create e (create_arg b) db = Ok (nb, db') → p ∈ bookSchema →
  ∃ stored, accepts p (b !! path_name p) stored ∧
            fields nb !! path_name p = Some stored.
Proof.
  intros Hcreate Hp. pose proof Hcreate as Hc'. unfold Book_create in Hc'.
  destruct (construct bookSchema (create_arg b)) as [fs|] eqn:Hfs;
    [|by revert Hc'; thrown].
  destruct (construct_valid _ _ _ p Hfs Hp) as (v & Hv & Hreq).
  destruct (accepts_of_path_value b p v Hp Hv Hreq) as [stored Hacc].
  exists stored. split; [done|].
  rewrite (created_field_lookup _ _ _ _ _ p Hp Hcreate).
  by destruct (path_value_accepts b p stored Hp Hacc) as [-> _].
Qed.

(** X12.  The record of a create answered with 201 is appended to the
    collection under the generated, unused identifier; its title, author and
    genre are non-empty text and its publicationYear a number; its available
    is the default [true] when the body has none and the Boolean cast of the
    supplied value otherwise; and its [createdAt] and [updatedAt] are the
    time of the request. *)
Theorem post_books_created_well_formed e b db msg nb db' :
  post_books e b db = (mkResponse 201 (PCreated msg nb), db') →
  db' = (db ++ [nb])%list ∧
  _id nb = fresh_id e ∧ (fresh_id e ∉ _id <$> db) ∧
  (∃ t a g y,
     fields nb !! "title" = Some (BStr t) ∧ t ≠ "" ∧
     fields nb !! "author" = Some (BStr a) ∧ a ≠ "" ∧
     fields nb !! "genre" = Some (BStr g) ∧ g ≠ "" ∧
     fields nb !! "publicationYear" = Some (BNum y)) ∧
  fields nb !! "available" =
    match b !! "available" with
    | None => Some (BBool true)
    | Some j => castBoolean j
    end ∧
  is_Some (fields nb !! "available") ∧
  fields nb !! "createdAt" = Some (BDate (now e)) ∧
  fields nb !! "updatedAt" = Some (BDate (now e)).
Proof.
  rewrite post_books_unfold.
  destruct (Book_create e (create_arg b) db) as [[nb1 db1]|] eqn:Hcreate;
    [|intros H; discriminate H].
  intros [= _ <- <-].
  pose proof (Book_create_inv _ _ _ _ _ Hcreate) as (Hid & Hdb & Hfresh & Hc & Hu).
  split; [done|]. split; [done|]. split; [done|].
  assert (Hfield : ∀ p, p ∈ bookSchema →
            ∃ stored, accepts p (b !! path_name p) stored ∧
                      fields nb1 !! path_name p = Some stored).
  { intros p Hp. by eapply created_field_accepts. }
  destruct (Hfield title_path ltac:(solve_elem)) as (st & Ht & Ft).
  destruct (Hfield author_path ltac:(solve_elem)) as (sa & Ha & Fa).
  destruct (Hfield genre_path ltac:(solve_elem)) as (sg & Hg & Fg).
  destruct (Hfield publicationYear_path ltac:(solve_elem)) as (sy & Hy & Fy).
  destruct (Hfield available_path ltac:(solve_elem)) as (av & Hv & Fv).
  destruct (accepts_title_shape title_path _ _ eq_refl eq_refl Ht) as (t & -> & Ht0).
  destruct (accepts_title_shape author_path _ _ eq_refl eq_refl Ha) as (a & -> & Ha0).
  destruct (accepts_title_shape genre_path _ _ eq_refl eq_refl Hg) as (g & -> & Hg0).
  destruct (accepts_year_shape _ _ Hy) as (y & ->).
  split.
  { exists t, a, g, y. split; [exact Ft|]. split; [exact Ht0|]. split; [exact Fa|].
    split; [exact Ha0|]. split; [exact Fg|]. split; [exact Hg0|exact Fy]. }
  split; [|split; [exists av; exact Fv|done]].
  etrans; [exact Fv|]. destruct Hv as [Hv _]. simpl in Hv.
  destruct (b !! "available") as [j|]; simpl in *; [|done].
  unfold cast_path in Hv. simpl in Hv. by rewrite Hv.
Qed.

(** Instance of X12: the string ["no"] given for available is stored as [false]. *)
Lemma post_books_created_well_formed_witness :
  let b : gmap string json :=
    <["title" := JStr "Dune"]> (<["author" := JStr "Frank Herbert"]>
      (<["genre" := JStr "Science Fiction"]>
        (<["publicationYear" := JNum 1965]> {[ "available" := JStr "no" ]}))) in
  ∃ nb, post_books sample_env b [sample_book] =
          (mkResponse 201 (PCreated "✅ New book added" nb), [sample_book; nb]) ∧
        fields nb !! "available" = Some (BBool false) ∧
        fields nb !! "createdAt" = Some (BDate (now sample_env)).
Proof.
  intros b.
  assert (Hpost : ∃ nb, post_books sample_env b [sample_book] =
            (mkResponse 201 (PCreated "✅ New book added" nb), [sample_book; nb])).
  { eexists. vm_compute. reflexivity. }
  destruct Hpost as [nb Hpost]. exists nb. split; [exact Hpost|].
  destruct (post_books_created_well_formed _ _ _ _ _ _ Hpost)
    as (_ & _ & _ & _ & Hav & _ & Hc & _).
  split; [|exact Hc]. etrans; [exact Hav|]. vm_compute. reflexivity.
Defined.

(** The text paths of the schema. *)
Lemma text_path_of k :
  k ∈ ["title"; "author"; "genre"] →
  ∃ p, p ∈ bookSchema ∧ path_name p = k ∧ path_type p = SString ∧
       path_required p = true ∧ path_trim p = true.
Proof.
  rewrite !elem_of_cons, elem_of_nil.
  intros [->|[->|[->|[]]]];
    [exists title_path|exists author_path|exists genre_path];
    (split; [solve_elem|done]).
Qed.

(** X13.  A create request whose title, author or genre is a string of
    white space only (or the empty string) is answered with 500 and stores
    nothing: the required check runs on the trimmed text. *)
Theorem post_books_blank_text e b db k s :
  k ∈ ["title"; "author"; "genre"] →
  b !! k = Some (JStr s) → trim s = "" →
  post_books e b db = (mkResponse 500 (PError "Error adding book"), db).
Proof.
  intros Hk Hb Hblank.
  destruct (text_path_of k Hk) as (p & Hp & <- & Hty & Hreq & Htrim).
  destruct (post_books_outcome e b db) as [[H500 _]|(nb & _ & Hcreate)]; [done|].
  exfalso.
  destruct (created_field_accepts _ _ _ _ _ p Hcreate Hp) as (stored & [Hv Hcheck] & _).
  rewrite Hb in Hv. unfold cast_path in Hv. rewrite Hty in Hv. simpl in Hv.
  rewrite Htrim, Hblank in Hv. injection Hv as <-.
  specialize (Hcheck Hreq). unfold check_required in Hcheck. rewrite Hty in Hcheck.
  discriminate Hcheck.
Qed.

(** Instance of X13: a title of three spaces. *)
Lemma post_books_blank_text_witness :
  post_books sample_env
    (<["title" := JStr "   "]> (<["author" := JStr "Frank Herbert"]>
      (<["genre" := JStr "Science Fiction"]> {[ "publicationYear" := JNum 1965 ]})))
    [sample_book]
  = (mkResponse 500 (PError "Error adding book"), [sample_book]).
Proof.
  apply (post_books_blank_text _ _ _ "title" "   ").
  - solve_elem.
  - vm_compute. reflexivity.
  - vm_compute. reflexivity.
Defined.

(** X9.  An update whose title, author or genre is a non-empty string of
    white space only is accepted, and the stored field becomes the empty
    string: the value is truthy, the path's setter trims it, and no
    validator runs on an update. *)
Theorem put_books_id_blank_text e id b db oid d k s :
  castObjectId id = Some oid →
  List.find (has_id oid) db = Some d →
  (∀ p v, p ∈ bookSchema → update_set b !! path_name p = Some v →
          is_Some (cast_path p v)) →
  k ∈ ["title"; "author"; "genre"] →
  b !! k = Some (JStr s) → s ≠ "" → trim s = "" →
  ∃ result db' d',
    put_books_id e id b db = (mkResponse 200 (PUpdateResult result), db') ∧
    List.find (has_id oid) db' = Some d' ∧
    fields d' !! k = Some (BStr "").
Proof.
  intros Hid Hfind Hcasts Hk Hb Hs Hblank.
  destruct (text_path_of k Hk) as (p & Hp & <- & Hty & _ & Htrim).
  destruct (cast_set_accepts bookSchema (update_set b) Hcasts) as [changes Hcast].
  destruct (put_books_id_matched e id b db oid d changes Hid Hfind Hcast)
    as [Hput Hfind'].
  eexists _, _, _. split; [exact Hput|]. split; [exact Hfind'|].
  rewrite (updated_field_lookup _ _ _ _ _ Hp Hcast).
  rewrite update_set_guarded.
  2:{ revert Hk. unfold truthy_guarded. rewrite !elem_of_cons, !elem_of_nil. tauto. }
  rewrite Hb. simpl.
  destruct (String.eqb_spec s "") as [->|_]; [done|]. simpl.
  unfold cast_path. rewrite Hty. simpl. by rewrite Htrim, Hblank.
Qed.

(** Instance of X9: a title of two spaces empties the stored title. *)
Lemma put_books_id_blank_text_witness :
  ∃ result db' d',
    put_books_id sample_env sample_id {[ "title" := JStr "  " ]} [sample_book] =
      (mkResponse 200 (PUpdateResult result), db') ∧
    List.find (has_id sample_oid) db' = Some d' ∧
    fields d' !! "title" = Some (BStr "").
Proof.
  apply (put_books_id_blank_text sample_env sample_id _ [sample_book] sample_oid
           sample_book "title" "  ").
  - vm_compute. reflexivity.
  - vm_compute. reflexivity.
  - eapply cast_set_Ok_casts. vm_compute. reflexivity.
  - solve_elem.
  - vm_compute. reflexivity.
  - discriminate.
  - vm_compute. reflexivity.
Defined.

(** X10.  After an accepted update that supplies a non-empty text genre, the
    genre query for that same text returns the updated record. *)
Theorem put_books_id_then_get_books_genre e id b db oid d g :
  castObjectId id = Some oid →
  List.find (has_id oid) db = Some d →
  (∀ p v, p ∈ bookSchema → update_set b !! path_name p = Some v →
          is_Some (cast_path p v)) →
  b !! "genre" = Some (JStr g) → g ≠ "" →
  ∃ result db' d' books,
    put_books_id e id b db = (mkResponse 200 (PUpdateResult result), db') ∧
    List.find (has_id oid) db' = Some d' ∧
    get_books_genre g db' = mkResponse 200 (PBooks books) ∧
    d' ∈ books.
Proof.
  intros Hid Hfind Hcasts Hb Hg.
  destruct (cast_set_accepts bookSchema (update_set b) Hcasts) as [changes Hcast].
  destruct (put_books_id_matched e id b db oid d changes Hid Hfind Hcast)
    as [Hput Hfind'].
  eexists _, _, _, _. split; [exact Hput|]. split; [exact Hfind'|].
  split; [apply get_books_genre_unfold|].
  apply elem_of_filter_bool. split.
  - apply find_some in Hfind' as [Hin _]. by apply list_elem_of_In.
  - apply bool_decide_eq_true.
    etrans; [exact (updated_field_lookup _ _ _ _ genre_path ltac:(solve_elem) Hcast)|].
    simpl. rewrite update_set_guarded by solve_elem. rewrite Hb. simpl.
    destruct (String.eqb_spec g "") as [->|_]; done.
Qed.

(** Instance of X10: a padded genre is found again under the same padded text. *)
Lemma put_books_id_then_get_books_genre_witness :
  ∃ result db' d' books,
    put_books_id sample_env sample_id {[ "genre" := JStr " Satire" ]}
      [legacy_book; sample_book] = (mkResponse 200 (PUpdateResult result), db') ∧
    List.find (has_id sample_oid) db' = Some d' ∧
    get_books_genre " Satire" db' = mkResponse 200 (PBooks books) ∧
    d' ∈ books.
Proof.
  apply (put_books_id_then_get_books_genre sample_env sample_id _
           [legacy_book; sample_book] sample_oid sample_book " Satire").
  - vm_compute. reflexivity.
  - vm_compute. reflexivity.
  - eapply cast_set_Ok_casts. vm_compute. reflexivity.
  - vm_compute. reflexivity.
  - discriminate.
Defined.

(** X14.  The create handler reads only title, author, genre, publicationYear
    and available from the body: two bodies that agree on these five keys
    get the same response and leave the same collection, and the created
    record holds no field besides these five, [createdAt], [updatedAt] and
    [__v]. *)
Theorem post_books_ignores_unknown_keys e b db :
  (∀ b' : gmap string json,
     (∀ k, k ∈ updatable → b' !! k = b !! k) →
     post_books e b' db = post_books e b db) ∧
  (∀ msg nb db',
     post_books e b db = (mkResponse 201 (PCreated msg nb), db') →
     ∀ k, k ∉ updatable → k ∉ ["createdAt"; "updatedAt"; "__v"] →
          fields nb !! k = None).
Proof.
  split.
  - intros b' Hagree. rewrite !post_books_unfold.
    replace (create_arg b') with (create_arg b); [done|].
    unfold create_arg. by rewrite !Hagree by solve_elem.
  - intros msg nb db'. rewrite post_books_unfold.
    destruct (Book_create e (create_arg b) db) as [[nb1 db1]|] eqn:Hcreate;
      [|intros H; discriminate H].
    intros [= _ <- <-] k Hk Hstamp. unfold Book_create in Hcreate.
    destruct (construct bookSchema (create_arg b)) as [fs|] eqn:Hfs;
      [|by revert Hcreate; thrown].
    rewrite bind_Ok in Hcreate.
    destruct (bool_decide (fresh_id e ∈ _id <$> db)); [discriminate Hcreate|].
    injection Hcreate as <- _. simpl. unfold stamp_insert, timestamps.
    rewrite !lookup_insert_ne
      by (intros <-; apply Hstamp; rewrite !elem_of_cons; tauto).
    rewrite (construct_lookup _ _ _ k bookSchema_NoDup Hfs).
    fold (schema_lookup k). by rewrite schema_lookup_outside.
Qed.

(** Instance of X14: an [isbn] key is not stored. *)
Lemma post_books_ignores_unknown_keys_witness :
  let b : gmap string json :=
    <["title" := JStr "Dune"]> (<["author" := JStr "Frank Herbert"]>
      (<["genre" := JStr "Science Fiction"]>
        (<["publicationYear" := JNum 1965]> {[ "isbn" := JStr "978-0" ]}))) in
  ∃ nb, post_books sample_env b [] =
          (mkResponse 201 (PCreated "✅ New book added" nb), [nb]) ∧
        fields nb !! "isbn" = None.
Proof.
  intros b.
  assert (Hpost : ∃ nb, post_books sample_env b [] =
            (mkResponse 201 (PCreated "✅ New book added" nb), [nb])).
  { eexists. vm_compute. reflexivity. }
  destruct Hpost as [nb Hpost]. exists nb. split; [exact Hpost|].
  destruct (post_books_ignores_unknown_keys sample_env b []) as [_ Hnone].
  apply (Hnone _ _ _ Hpost); solve_elem.
Defined.

(** X15.  Deleting by the identifier of the record a create has just
    inserted answers 200 with deletedCount 1 and gives back the collection as
    it was before the create. *)
Theorem post_books_then_delete_books_id e b db msg nb db' id :
  post_books e b db = (mkResponse 201 (PCreated msg nb), db') →
  castObjectId id = Some (fresh_id e) →
  delete_books_id id db' =
    (mkResponse 200 (PDeleteResult (mkDeleteResult true 1)), db).
Proof.
  rewrite post_books_unfold.
  destruct (Book_create e (create_arg b) db) as [[nb1 db1]|] eqn:Hcreate;
    [|intros H; discriminate H].
  intros [= _ <- <-] Hid.
  apply Book_create_inv in Hcreate as (Hnb & -> & Hfresh & _).
  unfold delete_books_id, Book_deleteOne.
  rewrite (cast_query_QId _ _ Hid), bind_Ok.
  destruct (delete_first_split (has_id (fresh_id e)) db nb1 []) as [-> ->].
  - intros x Hx. apply has_id_false. intros Heq. apply Hfresh.
    rewrite <-Heq. apply list_elem_of_fmap. eauto.
  - by apply has_id_true.
  - by rewrite app_nil_r.
Qed.

(** Instance of X15: create, then delete by the generated identifier. *)
Lemma post_books_then_delete_books_id_witness :
  let b : gmap string json :=
    <["title" := JStr "Dune"]> (<["author" := JStr "Frank Herbert"]>
      (<["genre" := JStr "Science Fiction"]> {[ "publicationYear" := JNum 1965 ]})) in
  ∃ nb db',
    post_books sample_env b [sample_book] =
      (mkResponse 201 (PCreated "✅ New book added" nb), db') ∧
    delete_books_id "000000000000000000000065" db' =
      (mkResponse 200 (PDeleteResult (mkDeleteResult true 1)), [sample_book]).
Proof.
  intros b.
  assert (Hpost : ∃ nb db', post_books sample_env b [sample_book] =
            (mkResponse 201 (PCreated "✅ New book added" nb), db')).
  { eexists _, _. vm_compute. reflexivity. }
  destruct Hpost as (nb & db' & Hpost). exists nb, db'. split; [exact Hpost|].
  apply (post_books_then_delete_books_id sample_env b [sample_book] _ nb db' _ Hpost).
  vm_compute. reflexivity.
Defined.

(** ** Invariants of the collection *)

Lemma delete_first_sublist (m : document → bool) db : sublist (delete_first m db) db.
Proof.
  induction db as [|d db IH]; simpl; [constructor|].
  destruct (m d); by constructor.
Qed.

(** The collection after a delete, whatever the response. *)
Lemma delete_books_id_collection id db :
  sublist (delete_books_id id db).2 db.
Proof.
  unfold delete_books_id, Book_deleteOne.
  destruct (cast_query (QId id)) as [m|]; [|done].
  rewrite bind_Ok. destruct (List.find m db); simpl; [apply delete_first_sublist|done].
Qed.

Lemma backfill_ids t (db : list document) :
  _id <$> ((λ d, if lacks_available d then backfill t d else d) <$> db) = _id <$> db.
Proof.
  rewrite <-list_fmap_compose. apply list_fmap_ext. intros i d _. simpl.
  by destruct (lacks_available d).
Qed.

(** X16.  If the identifiers of the collection are pairwise distinct, they
    still are after a create, an update, a delete and a backfill, whatever
    the request and its response. *)
Theorem identifiers_stay_unique e id b db :
  NoDup (_id <$> db) →
  NoDup (_id <$> (post_books e b db).2) ∧
  NoDup (_id <$> (put_books_id e id b db).2) ∧
  NoDup (_id <$> (delete_books_id id db).2) ∧
  NoDup (_id <$> (post_books_fix_availability e db).2).
Proof.
  intros Hnodup. split; [|split; [|split]].
  - destruct (post_books_outcome e b db) as [[-> _]|(nb & -> & Hcreate)]; [done|].
    apply Book_create_inv in Hcreate as (Hid & _ & Hfresh & _). simpl.
    rewrite fmap_app. apply NoDup_app. split; [done|]. split.
    + intros x Hx Hin. simpl in Hin. apply list_elem_of_singleton in Hin.
      apply Hfresh. congruence.
    + simpl. apply NoDup_singleton.
  - destruct (put_books_id_collection e id b db) as [->|(oid & changes & _ & ->)];
      [done|].
    by rewrite update_first_ids.
  - eapply sublist_NoDup; [exact Hnodup|].
    apply fmap_sublist, delete_books_id_collection.
  - rewrite post_books_fix_availability_unfold. simpl. by rewrite backfill_ids.
Qed.

(** Instance of X16: the four writes on a two-record collection. *)
Lemma identifiers_stay_unique_witness :
  NoDup (_id <$> (post_books sample_env {[ "title" := JStr "Dune" ]}
                    [legacy_book; sample_book]).2) ∧
  NoDup (_id <$> (put_books_id sample_env sample_id {[ "title" := JStr "Dune" ]}
                    [legacy_book; sample_book]).2) ∧
  NoDup (_id <$> (delete_books_id sample_id [legacy_book; sample_book]).2) ∧
  NoDup (_id <$> (post_books_fix_availability sample_env [legacy_book; sample_book]).2).
Proof.
  apply identifiers_stay_unique.
  simpl. repeat (apply NoDup_cons; split; [rewrite ?elem_of_cons, ?elem_of_nil;
    intuition discriminate|]). apply NoDup_nil_2.
Defined.

Lemma update_first_elem (m : document → bool) f db x :
  x ∈ update_first m f db → x ∈ db ∨ ∃ d, d ∈ db ∧ x = f d.
Proof.
  induction db as [|d db IH]; simpl; [by left|].
  destruct (m d).
  - rewrite !elem_of_cons. intros [->|Hx]; [right; exists d; split; [by left|done]|].
    left. by right.
  - rewrite elem_of_cons. intros [->|Hx]; [left; by left|].
    destruct (IH Hx) as [Hin|(d0 & Hin & ->)].
    + left. by right.
    + right. exists d0. split; [by right|done].
Qed.

(** X17.  After a backfill every record has an [available] field; and when
    every record has one, every record still has one after a create, an
    update and a delete, whatever the request and its response. *)
Theorem available_field_stays e id b db :
  (∀ d, d ∈ (post_books_fix_availability e db).2 → is_Some (fields d !! "available")) ∧
  ((∀ d, d ∈ db → is_Some (fields d !! "available")) →
   (∀ d, d ∈ (post_books e b db).2 → is_Some (fields d !! "available")) ∧
   (∀ d, d ∈ (put_books_id e id b db).2 → is_Some (fields d !! "available")) ∧
   (∀ d, d ∈ (delete_books_id id db).2 → is_Some (fields d !! "available"))).
Proof.
  split.
  - rewrite post_books_fix_availability_unfold. simpl. intros d Hd.
    apply backfilled_has_available, lacks_available_false in Hd.
    by apply not_eq_None_Some.
  - intros Hall. split; [|split].
    + destruct (post_books_outcome e b db) as [[-> _]|(nb & -> & Hcreate)]; [done|].
      simpl. intros d Hd. apply elem_of_app in Hd as [Hd|Hd]; [by apply Hall|].
      apply list_elem_of_singleton in Hd as ->.
      destruct (created_field_accepts _ _ _ _ _ available_path Hcreate
                  ltac:(solve_elem)) as (stored & _ & Hf).
      exists stored. exact Hf.
    + destruct (put_books_id_collection e id b db) as [->|(oid & changes & _ & ->)];
        [done|].
      intros x Hx. apply update_first_elem in Hx as [Hx|(d & Hd & ->)]; [by apply Hall|].
      rewrite apply_set_lookup. destruct (_ !! "available"); [eauto|by apply Hall].
    + intros d Hd. apply Hall.
      eapply elem_of_sublist; [exact Hd|]. apply delete_books_id_collection.
Qed.

(** Instance of X17: an update after a backfill of a legacy record. *)
Lemma available_field_stays_witness :
  Forall (λ d, is_Some (fields d !! "available"))
    (put_books_id sample_env sample_id {[ "title" := JStr "Dune" ]}
       (post_books_fix_availability sample_env [legacy_book; sample_book]).2).2.
Proof.
  apply Forall_forall.
  destruct (available_field_stays sample_env sample_id {[ "title" := JStr "Dune" ]}
              (post_books_fix_availability sample_env [legacy_book; sample_book]).2)
    as [_ Hkept].
  apply Hkept.
  apply (available_field_stays sample_env sample_id ∅ [legacy_book; sample_book]).
Defined.
